(** * Epoch-based learning-rate schedule of [train.py]

    A shallow embedding of the callback [EpochBasedLearningRateSchedule]
    and of its nested helper [_lr_schedule], with the properties of the
    schedule-resolution rule proved about the embedded code.

    Python integers are [Z]; a schedule is a Python list of
    [(epoch, rate)] tuples, here [list (Z * Rate)]; Python exceptions are
    the [Raise] branch of [result]. *)

From Stdlib Require Import ZArith QArith Qabs Lia Ascii String.
From Stdlib Require Import Floats.SpecFloat.
From stdpp Require Import base list sorting strings gmap.

Local Open Scope Z_scope.

(** ** Python exceptions and the error monad *)

Inductive exception : Type :=
| ValueError (msg : string)
| AttributeError (attr : string)
| IndexError.

Inductive result (A : Type) : Type :=
| Return (a : A)
| Raise (e : exception).

Arguments Return {A} a.
Arguments Raise {A} e.

(** [result] is a monad; stdpp's [x ← m; k] is its bind: an exception raised
    by [m] skips [k]. *)
#[export] Instance result_ret : MRet result := λ A a, Return a.

#[export] Instance result_bind : MBind result := λ A B k m,
  match m with
  | Return a => k a
  | Raise e => Raise e
  end.

(** ** Python sequences *)

Module Py.

(** [l[i]] for a Python list: a negative index counts from the end, and an
    index outside [-len(l) .. len(l)-1] raises [IndexError]. *)
Definition getitem {A : Type} (l : list A) (i : Z) : result A :=
  let n := Z.of_nat (length l) in
  let j := if i <? 0 then i + n else i in
  if (j <? 0) || (n <=? j) then Raise IndexError
  else match l !! Z.to_nat j with
       | Some x => Return x
       | None => Raise IndexError
       end.

(** [range(n)] *)
Definition range (n : nat) : list nat := seq 0 n.

End Py.

(** ** The nested helper [_lr_schedule] (train.py, lines 47-55) *)

Section LrSchedule.

Context {Rate : Type}.

(** The body of [for i in range(len(schedule))]: the indices still to be
    visited are the argument. *)
Fixpoint _lr_schedule_loop (epoch : Z) (lr : Rate) (schedule : list (Z * Rate))
    (indices : list nat) : result Rate :=
  match indices with
  | [] => Return lr
  | i :: rest =>
      p ← Py.getitem schedule (Z.of_nat i);
      if epoch =? p.1 then Return p.2
      else _lr_schedule_loop epoch lr schedule rest
  end.

(** [or] evaluates its right operand, and so [schedule[-1]], only when the
    left one is false. *)
Definition _lr_schedule (epoch : Z) (lr : Rate) (schedule : list (Z * Rate))
    : result Rate :=
  first ← Py.getitem schedule 0;
  if epoch <? first.1 then Return lr
  else
    last ← Py.getitem schedule (-1);
    if epoch >? last.1 then Return lr
    else _lr_schedule_loop epoch lr schedule (Py.range (length schedule)).

End LrSchedule.

(** What the scan of a list of breakpoints yields, read off the list itself:
    the rate of the first breakpoint carrying [epoch], else [lr]. Used to
    state what the index loop computes. *)
Fixpoint first_match {Rate : Type} (epoch : Z) (lr : Rate) (l : list (Z * Rate))
    : Rate :=
  match l with
  | [] => lr
  | p :: l' => if epoch =? p.1 then p.2 else first_match epoch lr l'
  end.

(** ** Python floats

    A Python [float] is an IEEE 754 binary64 number: [spec_float] with
    precision 53 and maximal exponent 1024. *)

Module Float.

Definition float : Type := spec_float.

Definition prec : Z := 53.
Definition emax : Z := 1024.

Definition of_Z (n : Z) : float := binary_normalize prec emax n 0 false.

(** The literal [<digits>e-<places>], as [0.001] is [1e-3]: the binary64
    number nearest to it. Both operands of the division are exact for the
    literals of [train.py], and the division rounds to nearest, ties to
    even, as the parser of float literals does. *)
Definition literal (digits : Z) (places : N) : float :=
  SFdiv prec emax (of_Z digits) (of_Z (10 ^ Z.of_N places)).

(** The number a float stands for; infinities and NaN stand for none. *)
Definition value (x : float) : option Q :=
  match x with
  | S754_zero _ => Some 0%Q
  | S754_finite s m e =>
      let sm := if s then Z.neg m else Z.pos m in
      Some (match e with
            | Z.neg k => Qmake sm (2 ^ k)
            | _ => inject_Z (sm * 2 ^ e)
            end)
  | _ => None
  end.

Definition sign (x : float) : bool :=
  match x with
  | S754_zero s | S754_infinity s | S754_finite s _ _ => s
  | S754_nan => false
  end.

Definition is_finite (x : float) : bool :=
  match x with
  | S754_zero _ | S754_finite _ _ _ => true
  | _ => false
  end.

(** *** The backend's [float32]

    A backend variable of a Keras optimizer holds an IEEE 754 binary32
    number (the framework's default [floatx]): precision 24, maximal
    exponent 128. *)

Definition valid32 (x : spec_float) : bool := valid_binary 24 128 x.

Definition float32 : Type := sig (λ x : spec_float, Is_true (valid32 x)).

(** A number is taken as a [float32] once it is seen to be one; rounding
    produces nothing else, see [to_f32_rounds] below. *)
Definition checked32 (y : spec_float) : float32 :=
  match decide (Is_true (valid32 y)) with
  | left H => y ↾ H
  | right _ => S754_nan ↾ I
  end.

(** Rounding to binary32, to nearest and ties to even. *)
Definition round32 (x : spec_float) : spec_float :=
  match x with
  | S754_finite s m e => binary_round 24 128 s m e
  | _ => x
  end.

(** Storing a Python float in a [float32] variable rounds it. *)
Definition to_f32 (x : float) : float32 := checked32 (round32 x).

(** [float(v)] for a [float32] value [v]: the binary64 number of the same
    value; the conversion is exact. *)
Definition widen (x : float32) : float :=
  match `x with
  | S754_finite s m e => binary_round prec emax s m e
  | y => y
  end.

End Float.

Abbreviation float := Float.float.

(** ** Text and the [%] formatting operator

    Text is a list of characters. [Fmt.format_d_zero w] is the conversion
    [%0<w>d] and [Fmt.format_f w p] the conversion [%<w>.<p>f] of Python's
    string formatting. *)

Definition text (s : string) : list ascii := list_ascii_of_string s.

Module Fmt.

Definition digit (d : N) : ascii := ascii_of_N (48 + d).

(** The last [k] decimal digits of [n], most significant first. *)
Fixpoint fixed_digits (k : nat) (n : N) : list ascii :=
  match k with
  | O => []
  | S k' => fixed_digits k' (n / 10) ++ [digit (n mod 10)]
  end.

Fixpoint ndigits_fuel (fuel : nat) (n : N) : nat :=
  match fuel with
  | O => 1
  | S fuel' => if (n <? 10)%N then 1%nat else S (ndigits_fuel fuel' (n / 10))
  end.

(** The number of decimal digits of [n]; [0] has one. A number has no more
    decimal digits than binary ones, so the fuel suffices. *)
Definition ndigits (n : N) : nat := ndigits_fuel (N.to_nat (N.size n)) n.

Definition decimal (n : N) : list ascii := fixed_digits (ndigits n) n.

(** Padding on the left up to [width] characters. *)
Definition pad (c : ascii) (width : nat) (s : list ascii) : list ascii :=
  replicate (width - length s) c ++ s.

(** [%0<width>d]: the zeros go between the sign and the digits. *)
Definition format_d_zero (width : nat) (z : Z) : list ascii :=
  let body := decimal (Z.abs_N z) in
  if z <? 0 then "-"%char :: pad "0"%char (width - 1) body
  else pad "0"%char width body.

(** [num / den] rounded to the nearest integer, ties to even. *)
Definition round_half_even (num den : N) : N :=
  let q := (num / den)%N in
  let r := (num mod den)%N in
  if (den <? 2 * r)%N || ((2 * r =? den)%N && N.odd q) then (q + 1)%N else q.

(** [m * 2^e * 10^p] rounded to the nearest integer: the digits to print,
    the decimal point taken out. *)
Definition scaled (p : nat) (m : positive) (e : Z) : N :=
  match e with
  | Z.neg k => round_half_even (N.pos m * 10 ^ N.of_nat p) (2 ^ N.pos k)
  | _ => (N.pos m * 2 ^ Z.to_N e * 10 ^ N.of_nat p)%N
  end.

Definition sign_text (s : bool) : list ascii := if s then ["-"%char] else [].

(** [n] with a decimal point before its last [p] digits. *)
Definition fixed_point (p : nat) (n : N) : list ascii :=
  decimal (n / 10 ^ N.of_nat p)
  ++ match p with
     | O => []
     | _ => "."%char :: fixed_digits p n
     end.

Definition format_f (width precision : nat) (x : float) : list ascii :=
  pad " "%char width
    match x with
    | S754_nan => text "nan"
    | S754_infinity s => sign_text s ++ text "inf"
    | S754_zero s => sign_text s ++ fixed_point precision 0
    | S754_finite s m e => sign_text s ++ fixed_point precision (scaled precision m e)
    end.

(** Reading a decimal numeral back: the number a non-empty text of digits
    denotes. *)
Definition digit_value (c : ascii) : option N :=
  let n := N_of_ascii c in
  if (48 <=? n)%N && (n <=? 57)%N then Some (n - 48)%N else None.

Fixpoint numeral_value_acc (acc : N) (s : list ascii) : option N :=
  match s with
  | [] => Some acc
  | c :: s' => d ← digit_value c; numeral_value_acc (10 * acc + d) s'
  end.

Definition numeral_value (s : list ascii) : option N :=
  match s with
  | [] => None
  | _ => numeral_value_acc 0 s
  end.

End Fmt.

(** ** The host: optimizer, backend variables, standard output *)

(** A backend variable is a location of the store. *)
Definition loc : Type := nat.

(** The calls made to the world outside the callback, oldest first. *)
Inductive event : Type :=
| GetValue (l : loc) (x : Float.float32)
| SetValue (l : loc) (x : float)
| Print (line : list ascii).

(** The variables hold [float32] numbers. *)
Record world : Type := World {
  heap : loc → Float.float32;
  trace : list event
}.

(** An object with named attributes; each attribute of the optimizer refers
    to a backend variable. Two names may refer to the same variable. *)
Record Optimizer : Type := { attributes : gmap string loc }.

Record Model : Type := { optimizer : Optimizer }.

Record EpochBasedLearningRateSchedule : Type := {
  schedule : list (Z * float);
  model : Model
}.

(** State and exceptions: an exception leaves the world as it was when it
    was raised. *)
Definition M (A : Type) : Type := world → result A * world.

#[export] Instance M_ret : MRet M := λ A a w, (Return a, w).

#[export] Instance M_bind : MBind M := λ A B k m w,
  match m w with
  | (Return a, w') => k a w'
  | (Raise e, w') => (Raise e, w')
  end.

Definition raise {A : Type} (e : exception) : M A := λ w, (Raise e, w).

Definition lift {A : Type} (r : result A) : M A := λ w, (r, w).

Definition emit (ev : event) : M unit :=
  λ w, (Return (), {| heap := heap w; trace := trace w ++ [ev] |}).

Definition hasattr (o : Optimizer) (name : string) : bool :=
  bool_decide (is_Some (attributes o !! name)).

Definition getattr (o : Optimizer) (name : string) : M loc :=
  match attributes o !! name with
  | Some l => mret l
  | None => raise (AttributeError name)
  end.

(** [tf.keras.backend.get_value]: the content of the variable, a
    [float32]. *)
Definition get_value (l : loc) : M Float.float32 :=
  λ w, (Return (heap w l), {| heap := heap w; trace := trace w ++ [GetValue l (heap w l)] |}).

(** [tf.keras.backend.set_value]: the variable is updated in place, and keeps
    the value given rounded to its own precision. *)
Definition set_value (l : loc) (x : float) : M unit :=
  λ w, (Return (),
        {| heap := λ l', if decide (l' = l) then Float.to_f32 x else heap w l';
           trace := trace w ++ [SetValue l x] |}).

(** The helper as the callback calls it at line 57: the same statements as
    [_lr_schedule], run in the world of the callback, where a statement
    could read or change a variable or print. *)
Fixpoint _lr_schedule_call_loop (epoch : Z) (lr : float) (schedule : list (Z * float))
    (indices : list nat) : M float :=
  match indices with
  | [] => mret lr
  | i :: rest =>
      p ← lift (Py.getitem schedule (Z.of_nat i));
      if epoch =? p.1 then mret p.2
      else _lr_schedule_call_loop epoch lr schedule rest
  end.

Definition _lr_schedule_call (epoch : Z) (lr : float) (schedule : list (Z * float))
    : M float :=
  first ← lift (Py.getitem schedule 0);
  if epoch <? first.1 then mret lr
  else
    last ← lift (Py.getitem schedule (-1));
    if epoch >? last.1 then mret lr
    else _lr_schedule_call_loop epoch lr schedule (Py.range (length schedule)).

(** [print]: the event carries the text given; [print] ends it with a
    newline of its own. *)
Definition print (line : list ascii) : M unit := emit (Print line).

Definition newline : list ascii := ["010"%char].
Definition quote : list ascii := ["034"%char].

Definition lr_missing_message : string :=
  string_of_list_ascii
    (text "Optimizer must have a " ++ quote ++ text "lr" ++ quote ++ text " attribute.").

(** ["\nEpoch %05d: Learning rate is %6.6f." % (epoch, scheduled_lr)] *)
Definition epoch_message (epoch : Z) (scheduled_lr : float) : list ascii :=
  newline ++ text "Epoch " ++ Fmt.format_d_zero 5 epoch
  ++ text ": Learning rate is " ++ Fmt.format_f 6 6 scheduled_lr ++ text ".".

(** [EpochBasedLearningRateSchedule.on_epoch_begin] (train.py, lines 38-61) *)
Definition on_epoch_begin (self : EpochBasedLearningRateSchedule) (epoch : Z)
    : M unit :=
  if negb (hasattr (optimizer (model self)) "lr")
  then raise (ValueError lr_missing_message)
  else
    learning_rate ← getattr (optimizer (model self)) "learning_rate";
    value ← get_value learning_rate;
    let lr := Float.widen value in
    scheduled_lr ← _lr_schedule_call epoch lr (schedule self);
    target ← getattr (optimizer (model self)) "lr";
    _ ← set_value target scheduled_lr;
    print (epoch_message epoch scheduled_lr).

(** What the process has written to standard output, one entry for each
    call of [print]. *)
Definition stdout (w : world) : list (list ascii) :=
  omap (λ ev, match ev with Print line => Some line | _ => None end) (trace w).

(** ** The training script's schedule (train.py, lines 144-146) *)

Definition training_schedule : list (Z * float) :=
  [(1, Float.literal 1 3); (30, Float.literal 1 4); (50, Float.literal 1 5)].

(** ** The training run of [train.py] *)

(** The optimizer of the script: in Keras [lr] is another name of the
    variable [learning_rate]. *)
Definition keras_optimizer : Optimizer :=
  {| attributes := {[ "lr" := 0%nat; "learning_rate" := 0%nat ]} |}.

Definition training_callback : EpochBasedLearningRateSchedule :=
  {| schedule := training_schedule; model := {| optimizer := keras_optimizer |} |}.

(** [keras.optimizers.Adam(0.0001)] (train.py, line 87): the variable holds
    the [float32] nearest to [0.0001]; nothing printed yet. *)
Definition initial_world : world :=
  {| heap := λ _, Float.to_f32 (Float.literal 1 4); trace := [] |}.

(** An optimizer that has the variable but not under the name [lr]. *)
Definition optimizer_without_lr : Optimizer :=
  {| attributes := {[ "learning_rate" := 0%nat ]} |}.

Definition callback_without_lr : EpochBasedLearningRateSchedule :=
  {| schedule := training_schedule; model := {| optimizer := optimizer_without_lr |} |}.

(** A later moment of a run: the rate has been lowered, another variable
    exists and output has been produced. *)
Definition later_world : world :=
  {| heap := λ l, match l with
                  | O => Float.to_f32 (Float.literal 1 4)
                  | _ => Float.to_f32 (Float.of_Z 7)
                  end;
     trace := [SetValue 0%nat (Float.literal 1 4); Print (text "Epoch 30/60")] |}.

(** A malformed schedule: epoch 30 is listed twice. *)
Definition duplicate_schedule : list (Z * float) :=
  [(1, Float.literal 1 3); (30, Float.literal 1 4); (30, Float.literal 5 5);
   (50, Float.literal 1 5)].

(** ** The log line, as the specification words it *)

(** [n] is the integer nearest to [x], and the even one of the two nearest
    when [x] lies half-way between them. *)
Definition nearest_even (n : N) (x : Q) : Prop :=
  (Qabs (inject_Z (Z.of_N n) - x) < 1 # 2)%Q
  ∨ ((Qabs (inject_Z (Z.of_N n) - x) == 1 # 2)%Q ∧ N.even n = true).

(** [s] writes [n] in decimal with at least [width] digits: zeros in front
    make up the width, and beyond the width there is no zero in front. *)
Definition zero_padded (width : nat) (n : N) (s : list ascii) : Prop :=
  (width ≤ length s)%nat
  ∧ ((width < length s)%nat → head s ≠ Some "0"%char)
  ∧ Fmt.numeral_value s = Some n.

(** [field] writes [rate] to six decimal places: a sign when the rate has
    one, the integer part in decimal without zeros in front, a point and six
    digits, which together are the rate's magnitude rounded to the nearest
    multiple of [10^-6], ties to the even one. *)
Definition rate_to_six_places (rate : float) (field : list ascii) : Prop :=
  ∃ (v : Q) (n : N) (int_part frac_part : list ascii),
    Float.value rate = Some v
    ∧ nearest_even n (Qabs v * inject_Z (10 ^ 6))
    ∧ field = Fmt.sign_text (Float.sign rate) ++ int_part ++ "."%char :: frac_part
    ∧ zero_padded 1 (n / 10 ^ 6)%N int_part
    ∧ length frac_part = 6%nat
    ∧ Fmt.numeral_value frac_part = Some (n mod 10 ^ 6)%N.

(** The epoch field as the specification words it: five digits denoting the
    epoch. *)
Definition five_digits (epoch : Z) (field : list ascii) : Prop :=
  length field = 5%nat ∧ Fmt.numeral_value field = Some (Z.to_N epoch).

(** The epoch field padded with zeros up to five digits: it is longer only
    when the epoch needs more, and then it is the epoch's own digits. *)
Definition at_least_five_digits (epoch : Z) (field : list ascii) : Prop :=
  zero_padded 5 (Z.to_N epoch) field.

(** [Epoch <epoch field>: Learning rate is <rate field>.] *)
Definition log_line (epoch_field : Z → list ascii → Prop) (epoch : Z) (rate : float)
    (line : list ascii) : Prop :=
  ∃ E R : list ascii,
    line = text "Epoch " ++ E ++ text ": Learning rate is " ++ R ++ text "."
    ∧ epoch_field epoch E
    ∧ rate_to_six_places rate R.

(** ** The schedule as a dictionary *)

(** The dictionary from epoch to rate a schedule spells out; of two
    breakpoints with one epoch the earlier one is kept. *)
Definition schedule_map {Rate : Type} (schedule : list (Z * Rate)) : gmap Z Rate :=
  list_to_map schedule.

(** ** The callback over the epochs of a run *)

(** The callback invoked at the beginning of each of the given epochs, in
    order, as the training loop started at line 179 does for the epochs
    [range(initial_epoch, epochs)]; an exception ends the run. Between two
    invocations nothing else touches the variables. *)
Fixpoint run_epochs (self : EpochBasedLearningRateSchedule) (epochs : list Z)
    : M unit :=
  match epochs with
  | [] => mret ()
  | epoch :: rest => _ ← on_epoch_begin self epoch; run_epochs self rest
  end.

(** [range(initial_epoch, epochs)] *)
Definition epoch_range (initial_epoch epochs : Z) : list Z :=
  seqZ initial_epoch (epochs - initial_epoch).

Definition is_digit (c : ascii) : Prop := is_Some (Fmt.digit_value c).

(** ** The script (train.py, lines 12-23 and 64-184)

    The script drives the framework: what it does is the sequence of calls
    it makes, with their arguments. The calls are kept as they are written;
    what the framework answers (whether the checkpoint directory exists,
    which checkpoint is the latest, whether a dataset is a
    [keras.utils.Sequence]) is the environment. *)

Module Script.

(** The datasets, as the expressions that build them. *)
Inductive dataset : Type :=
| make_wflw_dataset (dir name : string) (training : bool) (batch_size : Z)
    (mode : string)
| take (n : Z) (d : dataset)
| shuffle (n : Z) (d : dataset)
| batch (n : Z) (d : dataset)
| prefetch_autotune (d : dataset).

Inductive callback : Type :=
| ModelCheckpoint (filepath : string) (save_weights_only : bool) (verbose : Z)
    (save_best_only : bool)
| TensorBoard (log_dir : string) (histogram_freq : Z) (write_graph : bool)
    (update_freq : string)
| LearningRateSchedule (cb_schedule : list (Z * float)).

(** The calls with an effect outside the script. *)
Inductive action : Type :=
| BuildModel (height width channels : Z) (net_width output_channels : Z)
| Compile (adam_learning_rate : float)
| Makedirs (dir : string)
| PrintOut (line : list ascii)
| LoadWeights (path : string)
| SaveModel (dir : string)
| Evaluate (d : dataset)
| Fit (train validation : dataset) (fit_epochs fit_initial_epoch : Z)
    (callbacks : list callback).

Record environment : Type := {
  checkpoint_dir_exists : bool;
  latest_checkpoint : option string;
  is_sequence : dataset → bool
}.

(** [args = parser.parse_args()] *)
Record arguments : Type := {
  epochs : Z;
  initial_epoch : Z;
  batch_size : Z;
  export_only : bool;
  eval_only : bool
}.

(** [bool(s)] for a string: every string but the empty one is true. *)
Definition bool_of_str (s : string) : bool := negb (String.eqb s "").

(** An option declared with [default=False, type=bool] (lines 19-22): absent
    from the command line it is [False]; given with a value, it is [bool] of
    that value. *)
Definition flag (given : option string) : bool :=
  match given with
  | None => false
  | Some value => bool_of_str value
  end.

(** [if latest_checkpoint:] holds for a string that is not empty; [None] does
    not pass. *)
Definition truthy (path : option string) : bool :=
  match path with
  | None => false
  | Some p => bool_of_str p
  end.

(** How a part of the script ends: with a value; by [quit()], after which
    nothing runs; or by an exception, which nothing in the script catches. *)
Inductive outcome (A : Type) : Type :=
| Done (a : A)
| Quit
| Raised (e : exception).

Arguments Done {A} a.
Arguments Quit {A}.
Arguments Raised {A} e.

(** The script as a computation: the calls made so far are the state. *)
Definition S (A : Type) : Type := list action → outcome A * list action.

#[export] Instance S_ret : MRet S := λ A a acts, (Done a, acts).

#[export] Instance S_bind : MBind S := λ A B k m acts,
  match m acts with
  | (Done a, acts') => k a acts'
  | (Quit, acts') => (Quit, acts')
  | (Raised e, acts') => (Raised e, acts')
  end.

Definition act (a : action) : S unit := λ acts, (Done (), acts ++ [a]).

Definition quit {A : Type} : S A := λ acts, (Quit, acts).

Definition throw {A : Type} (e : exception) : S A := λ acts, (Raised e, acts).

Definition when (b : bool) (body : S unit) : S unit := if b then body else mret ().

Definition train_files_dir : string := "/home/robin/data/facial-marks/wflw_cropped/train".
Definition test_files_dir : string := "/home/robin/data/facial-marks/wflw_cropped/test".
Definition checkpoint_dir : string := "./checkpoints".
Definition export_dir : string := "./exported".
Definition log_dir : string := "./logs".

(** [os.path.join(checkpoint_dir, "hrnetv2")] *)
Definition checkpoint_path : string := "./checkpoints/hrnetv2".

(** [dataset.batch(batch_size).prefetch(AUTOTUNE)] unless the dataset is a
    [keras.utils.Sequence] (lines 118-120 and 133-135). *)
Definition batched (env : environment) (batch_size : Z) (d : dataset) : dataset :=
  if is_sequence env d then d else prefetch_autotune (batch batch_size d).

(** Lines 174-176 *)
Definition shuffled_batched (env : environment) (batch_size : Z) (d : dataset)
    : dataset :=
  if is_sequence env d then d
  else prefetch_autotune (batch batch_size (shuffle 1024 d)).

Definition test_dataset (args : arguments) : dataset :=
  make_wflw_dataset test_files_dir "wflw_test" false (batch_size args) "generator".

(** [d.take(n)] (line 132): a method of the datasets of [tf.data]; a
    [keras.utils.Sequence] has no attribute of this name. *)
Definition take_method (env : environment) (n : Z) (d : dataset) : S dataset :=
  if is_sequence env d then throw (AttributeError "take") else mret (take n d).

(** The body under [if __name__ == "__main__":] *)
Definition main (args : arguments) (env : environment) : S unit :=
  _ ← act (BuildModel 256 256 3 18 98);
  _ ← act (Compile (Float.literal 1 4));
  _ ← when (negb (checkpoint_dir_exists env))
        (_ ← act (Makedirs checkpoint_dir);
         act (PrintOut (text "Checkpoint directory created: " ++ text checkpoint_dir)));
  _ ← match latest_checkpoint env with
      | Some path =>
          if truthy (Some path) then
            _ ← act (PrintOut (text "Checkpoint found: " ++ text path
                               ++ text ", restoring.."));
            _ ← act (LoadWeights path);
            act (PrintOut (text "Checkpoint restored: " ++ text path))
          else
            act (PrintOut
                   (text "Checkpoint not found. Model weights will be initialized randomly."))
      | None =>
          act (PrintOut
                 (text "Checkpoint not found. Model weights will be initialized randomly."))
      end;
  _ ← when (export_only args)
        (_ ← when (bool_decide (latest_checkpoint env = None))
               (act (PrintOut (text "Warning: Model not restored from any checkpoint.")));
         _ ← act (SaveModel export_dir);
         _ ← act (PrintOut (text "Model saved at: " ++ text export_dir));
         quit);
  let dataset_test := batched env (batch_size args) (test_dataset args) in
  _ ← when (eval_only args) (_ ← act (Evaluate dataset_test); quit);
  taken ← take_method env 320 (test_dataset args);
  let dataset_val := batched env (batch_size args) taken in
  let callbacks :=
    [ModelCheckpoint checkpoint_path true 1 true;
     TensorBoard log_dir 1024 true "epoch";
     LearningRateSchedule training_schedule] in
  let dataset_train :=
    shuffled_batched env (batch_size args)
      (make_wflw_dataset train_files_dir "wflw_train" true (batch_size args)
         "generator") in
  _ ← act (Fit dataset_train dataset_val (epochs args) (initial_epoch args) callbacks);
  act (Evaluate dataset_test).

(** The calls of a whole run, and [false] exactly when [quit()] ended it. *)
Definition run (args : arguments) (env : environment) : list action * bool :=
  let '(result, acts) := main args env [] in
  (acts, match result with Quit => false | _ => true end).

(** The exception that ended the run, when one did. *)
Definition raised (args : arguments) (env : environment) : option exception :=
  match (main args env []).1 with
  | Raised e => Some e
  | _ => None
  end.

Definition is_fit (a : action) : bool :=
  match a with Fit _ _ _ _ _ => true | _ => false end.

Definition is_evaluate (a : action) : bool :=
  match a with Evaluate _ => true | _ => false end.

Definition is_save (a : action) : bool :=
  match a with SaveModel _ => true | _ => false end.

Definition is_load (a : action) : bool :=
  match a with LoadWeights _ => true | _ => false end.

Definition is_makedirs (a : action) : bool :=
  match a with Makedirs _ => true | _ => false end.

End Script.

(** ** Further inputs *)

(** The schedule of the script listed backwards. *)
Definition descending_schedule : list (Z * float) :=
  [(50, Float.literal 1 5); (30, Float.literal 1 4); (1, Float.literal 1 3)].

Definition callback_without_schedule : EpochBasedLearningRateSchedule :=
  {| schedule := []; model := {| optimizer := keras_optimizer |} |}.

(** The command line without any option: the defaults of lines 13-22. *)
Definition default_arguments : Script.arguments :=
  {| Script.epochs := 60; Script.initial_epoch := 0; Script.batch_size := 32;
     Script.export_only := Script.flag None; Script.eval_only := Script.flag None |}.

(** [--export_only False] *)
Definition export_false_arguments : Script.arguments :=
  {| Script.epochs := 60; Script.initial_epoch := 0; Script.batch_size := 32;
     Script.export_only := Script.flag (Some "False"%string);
     Script.eval_only := Script.flag None |}.

(** [--eval_only True] *)
Definition eval_arguments : Script.arguments :=
  {| Script.epochs := 60; Script.initial_epoch := 0; Script.batch_size := 32;
     Script.export_only := Script.flag None;
     Script.eval_only := Script.flag (Some "True"%string) |}.

(** A first run: no checkpoint directory, no checkpoint, datasets that are
    not [keras.utils.Sequence]. *)
Definition first_run : Script.environment :=
  {| Script.checkpoint_dir_exists := false; Script.latest_checkpoint := None;
     Script.is_sequence := λ _, false |}.

(** A first run in which [make_wflw_dataset] gives a [keras.utils.Sequence]
    and the methods of [tf.data] give datasets of [tf.data]. *)
Definition sequence_run : Script.environment :=
  {| Script.checkpoint_dir_exists := false; Script.latest_checkpoint := None;
     Script.is_sequence := λ d,
       match d with Script.make_wflw_dataset _ _ _ _ _ => true | _ => false end |}.

(** A later run, with a checkpoint to restore. *)
Definition later_run : Script.environment :=
  {| Script.checkpoint_dir_exists := true;
     Script.latest_checkpoint := Some "./checkpoints/hrnetv2"%string;
     Script.is_sequence := λ _, false |}.

(** * Properties *)

(** ** The definitions at work *)

Example lr_schedule_on_breakpoint :
  _lr_schedule 30 7%nat [(1, 11%nat); (30, 22%nat); (50, 33%nat)] = Return 22%nat.
Proof. reflexivity. Qed.

Example lr_schedule_empty_schedule (epoch : Z) :
  _lr_schedule epoch 7%nat [] = Raise IndexError.
Proof. reflexivity. Qed.

Example getitem_negative : Py.getitem [10; 20; 30] (-1) = Return 30.
Proof. reflexivity. Qed.

Example getitem_out_of_range : Py.getitem [10; 20; 30] 3 = Raise IndexError.
Proof. reflexivity. Qed.

(** [0.001] is [0x1.0624dd2f1a9fcp-10], and no binary64 number is nearer to
    one thousandth: the distance is within half a unit in the last place. *)
Example literal_one_thousandth :
  Float.literal 1 3 = S754_finite false 0x10624dd2f1a9fc (-62)
  ∧ Float.value (Float.literal 1 3) = Some (0x10624dd2f1a9fc # 2 ^ 62)%Q
  ∧ (Qabs ((0x10624dd2f1a9fc # 2 ^ 62) - (1 # 1000)) <= 1 # 2 ^ 63)%Q.
Proof. repeat split; vm_compute; congruence. Qed.

Example epoch_message_first_epoch :
  string_of_list_ascii (drop 1 (epoch_message 1 (Float.literal 1 3)))
  = "Epoch 00001: Learning rate is 0.001000."%string.
Proof. vm_compute. reflexivity. Qed.

Example format_d_zero_negative :
  string_of_list_ascii (Fmt.format_d_zero 5 (-5)) = "-0005"%string.
Proof. vm_compute. reflexivity. Qed.

Example format_f_rounds_half_to_even :
  string_of_list_ascii (Fmt.format_f 6 0 (Float.literal 25 1)) = "     2"%string
  ∧ string_of_list_ascii (Fmt.format_f 6 0 (Float.literal 35 1)) = "     4"%string.
Proof. split; vm_compute; reflexivity. Qed.

Example format_f_not_a_number :
  string_of_list_ascii (Fmt.format_f 6 6 S754_nan) = "   nan"%string.
Proof. vm_compute. reflexivity. Qed.

(** ** Indexing *)

Lemma getitem_nat {A} (l : list A) (i : nat) (x : A) :
  l !! i = Some x → Py.getitem l (Z.of_nat i) = Return x.
Proof.
  intros Hi. pose proof (lookup_lt_Some _ _ _ Hi) as Hlt.
  unfold Py.getitem.
  destruct (Z.ltb_spec (Z.of_nat i) 0) as [?|_]; [lia|].
  destruct (Z.ltb_spec (Z.of_nat i) 0) as [?|_]; [lia|].
  destruct (Z.leb_spec (Z.of_nat (length l)) (Z.of_nat i)) as [?|_]; [lia|].
  cbn. by rewrite Nat2Z.id, Hi.
Qed.

Lemma getitem_first {A} (l : list A) (x : A) :
  head l = Some x → Py.getitem l 0 = Return x.
Proof.
  intros Hx. apply (getitem_nat l 0). by rewrite <- head_lookup.
Qed.

Lemma getitem_last {A} (l : list A) (x : A) :
  last l = Some x → Py.getitem l (-1) = Return x.
Proof.
  intros Hx. rewrite last_lookup in Hx.
  pose proof (lookup_lt_Some _ _ _ Hx) as Hlt.
  unfold Py.getitem. cbn [Z.ltb Z.compare].
  destruct (Z.ltb_spec (-1 + Z.of_nat (length l)) 0) as [?|_]; [lia|].
  destruct (Z.leb_spec (Z.of_nat (length l)) (-1 + Z.of_nat (length l))) as [?|_];
    [lia|].
  cbn. replace (Z.to_nat (-1 + Z.of_nat (length l))) with (pred (length l)) by lia.
  by rewrite Hx.
Qed.

(** ** The loop is a search for the first matching breakpoint *)

Section Resolution.

Context {Rate : Type}.
Implicit Types (schedule : list (Z * Rate)) (epoch e : Z) (lr r : Rate).

Lemma loop_suffix epoch lr (visited todo : list (Z * Rate)) :
  _lr_schedule_loop epoch lr (visited ++ todo) (seq (length visited) (length todo))
  = Return (first_match epoch lr todo).
Proof.
  revert visited. induction todo as [|p todo IH]; intros visited; [done|].
  cbn [length seq _lr_schedule_loop first_match].
  rewrite (getitem_nat _ _ p); last by apply list_lookup_middle.
  cbn. destruct (epoch =? p.1); [done|].
  specialize (IH (visited ++ [p])).
  rewrite <- app_assoc, length_app in IH. cbn in IH.
  by rewrite Nat.add_1_r in IH.
Qed.

Lemma loop_whole epoch lr schedule :
  _lr_schedule_loop epoch lr schedule (Py.range (length schedule))
  = Return (first_match epoch lr schedule).
Proof. apply (loop_suffix epoch lr [] schedule). Qed.

Lemma lr_schedule_unfold epoch lr schedule first lst :
  head schedule = Some first → last schedule = Some lst →
  _lr_schedule epoch lr schedule
  = Return (if epoch <? first.1 then lr
            else if epoch >? lst.1 then lr
            else first_match epoch lr schedule).
Proof.
  intros Hf Hl. unfold _lr_schedule.
  rewrite (getitem_first _ _ Hf). cbn.
  destruct (epoch <? first.1); [done|].
  rewrite (getitem_last _ _ Hl). cbn.
  destruct (epoch >? lst.1); [done|].
  apply loop_whole.
Qed.

Lemma nonempty_ends schedule :
  schedule ≠ [] → ∃ first lst, head schedule = Some first ∧ last schedule = Some lst.
Proof.
  intros Hne. destruct schedule as [|p l]; [done|].
  destruct (last (p :: l)) as [q|] eqn:Hq.
  - by exists p, q.
  - by apply last_None in Hq.
Qed.

Lemma lr_schedule_nonempty epoch lr schedule :
  schedule ≠ [] →
  ∃ first lst,
    head schedule = Some first ∧ last schedule = Some lst
    ∧ _lr_schedule epoch lr schedule
      = Return (if epoch <? first.1 then lr
                else if epoch >? lst.1 then lr
                else first_match epoch lr schedule).
Proof.
  intros Hne. destruct (nonempty_ends schedule Hne) as (first & lst & Hf & Hl).
  exists first, lst. eauto using lr_schedule_unfold.
Qed.

Lemma first_match_no_match epoch lr (l : list (Z * Rate)) :
  epoch ∉ l.*1 → first_match epoch lr l = lr.
Proof.
  induction l as [|p l IH]; [done|]. cbn. intros Hnot.
  destruct (Z.eqb_spec epoch p.1) as [->|_].
  - exfalso. apply Hnot. left.
  - apply IH. intros Hin. apply Hnot. by right.
Qed.

Lemma first_match_at epoch lr (l : list (Z * Rate)) (i : nat) r :
  l !! i = Some (epoch, r) →
  (∀ j p, (j < i)%nat → l !! j = Some p → p.1 ≠ epoch) →
  first_match epoch lr l = r.
Proof.
  revert i. induction l as [|p l IH]; intros i Hi Hbefore; [done|].
  destruct i as [|i]; cbn in Hi.
  - injection Hi as ->. cbn. by rewrite Z.eqb_refl.
  - cbn. destruct (Z.eqb_spec epoch p.1) as [Heq|_].
    + exfalso. apply (Hbefore 0%nat p); [lia|done|done].
    + apply (IH i Hi). intros j q Hj Hq. apply (Hbefore (S j) q); [lia|done].
Qed.

Lemma first_match_again epoch lr (l : list (Z * Rate)) :
  first_match epoch (first_match epoch lr l) l = first_match epoch lr l.
Proof.
  induction l as [|p l IH]; [done|]. cbn.
  destruct (epoch =? p.1); [done|apply IH].
Qed.

Lemma first_match_range epoch lr (l : list (Z * Rate)) :
  first_match epoch lr l = lr ∨ first_match epoch lr l ∈ l.*2.
Proof.
  induction l as [|p l IH]; [by left|]. cbn.
  destruct (epoch =? p.1).
  - right. left.
  - destruct IH as [IH|IH]; [by left|right; by right].
Qed.

End Resolution.

(** ** Sorted schedules *)

Lemma sorted_lookup_le (l : list Z) (i j : nat) (x y : Z) :
  StronglySorted Z.le l → (i ≤ j)%nat → l !! i = Some x → l !! j = Some y → x ≤ y.
Proof.
  intros Hs. revert i j. induction Hs as [|a l Hs IH Hall]; intros i j Hij Hi Hj.
  - done.
  - destruct i as [|i], j as [|j]; cbn in Hi, Hj; try lia.
    + simplify_eq. lia.
    + injection Hi as ->. rewrite Forall_forall in Hall.
      apply Hall, list_elem_of_lookup. eauto.
    + apply (IH i j); [lia|done|done].
Qed.

Section SortedSchedule.

Context {Rate : Type}.
Implicit Types (schedule : list (Z * Rate)) (p q : Z * Rate).

Lemma schedule_lookup_le schedule (i j : nat) p q :
  Sorted Z.le schedule.*1 → (i ≤ j)%nat →
  schedule !! i = Some p → schedule !! j = Some q → p.1 ≤ q.1.
Proof.
  intros Hs Hij Hp Hq. apply Sorted_StronglySorted in Hs; [|apply _].
  apply (sorted_lookup_le schedule.*1 i j); [done|done| |].
  - by rewrite list_lookup_fmap, Hp.
  - by rewrite list_lookup_fmap, Hq.
Qed.

Lemma schedule_within_ends schedule first lst (i : nat) p :
  Sorted Z.le schedule.*1 →
  head schedule = Some first → last schedule = Some lst →
  schedule !! i = Some p → first.1 ≤ p.1 ≤ lst.1.
Proof.
  intros Hs Hf Hl Hp. rewrite head_lookup in Hf. rewrite last_lookup in Hl.
  pose proof (lookup_lt_Some _ _ _ Hp). split.
  - apply (schedule_lookup_le schedule 0 i); [done|lia|done|done].
  - apply (schedule_lookup_le schedule i (pred (length schedule)));
      [done|lia|done|done].
Qed.

Lemma unique_epochs_same_index schedule (i j : nat) p q :
  NoDup schedule.*1 →
  schedule !! i = Some p → schedule !! j = Some q → p.1 = q.1 → i = j.
Proof.
  intros Hnd Hp Hq Heq.
  apply (NoDup_lookup schedule.*1 i j p.1); [done| |].
  - by rewrite list_lookup_fmap, Hp.
  - by rewrite list_lookup_fmap, Hq, Heq.
Qed.

End SortedSchedule.

(** ** The resolution rule *)

Section ResolveProperties.

Context {Rate : Type}.
Implicit Types (schedule : list (Z * Rate)) (current_rate r : Rate) (e : Z).

(** C1: in a non-empty schedule sorted ascending by epoch with unique epochs,
    resolving at the epoch of a breakpoint [(e, r)] returns exactly [r],
    whatever the current rate. *)
Theorem resolve_breakpoint_exact schedule e r current_rate :
  schedule ≠ [] →
  Sorted Z.le schedule.*1 →
  NoDup schedule.*1 →
  (e, r) ∈ schedule →
  _lr_schedule e current_rate schedule = Return r.
Proof.
  intros Hne Hs Hnd Hin.
  destruct (nonempty_ends schedule Hne) as (first & lst & Hf & Hl).
  apply list_elem_of_lookup in Hin as [i Hi].
  pose proof (schedule_within_ends schedule first lst i (e, r) Hs Hf Hl Hi) as [Hlo Hhi].
  cbn in Hlo, Hhi.
  rewrite (lr_schedule_unfold e current_rate schedule first lst Hf Hl).
  destruct (Z.ltb_spec e first.1) as [?|_]; [lia|].
  destruct (Z.gtb_spec e lst.1) as [?|_]; [lia|].
  f_equal. apply (first_match_at e current_rate schedule i r Hi).
  intros j p Hj Hp Heq.
  pose proof (unique_epochs_same_index schedule j i p (e, r) Hnd Hp Hi Heq). lia.
Qed.

(** C2: in a sorted schedule, an epoch strictly between the epochs of two
    consecutive breakpoints resolves to the current rate, unchanged: neither
    of the surrounding rates is used. *)
Theorem resolve_between_breakpoints schedule (i : nat) e1 r1 e2 r2 e current_rate :
  Sorted Z.le schedule.*1 →
  schedule !! i = Some (e1, r1) →
  schedule !! S i = Some (e2, r2) →
  e1 < e < e2 →
  _lr_schedule e current_rate schedule = Return current_rate.
Proof.
  intros Hs H1 H2 [Hlo Hhi].
  assert (schedule ≠ []) as Hne by (intros ->; done).
  destruct (nonempty_ends schedule Hne) as (first & lst & Hf & Hl).
  rewrite (lr_schedule_unfold e current_rate schedule first lst Hf Hl).
  destruct (e <? first.1); [done|]. destruct (e >? lst.1); [done|].
  f_equal. apply first_match_no_match.
  intros Hin. apply list_elem_of_lookup in Hin as [j Hj].
  rewrite list_lookup_fmap in Hj.
  destruct (schedule !! j) as [p|] eqn:Hp; [|done]. injection Hj as Hj.
  destruct (le_lt_dec j i) as [Hji|Hji].
  - pose proof (schedule_lookup_le schedule j i p (e1, r1) Hs Hji Hp H1) as Hle.
    cbn in Hle. lia.
  - pose proof (schedule_lookup_le schedule (S i) j (e2, r2) p Hs Hji H2 Hp) as Hle.
    cbn in Hle. lia.
Qed.

(** C3: before the first breakpoint's epoch and after the last breakpoint's
    epoch the current rate is returned unchanged. Holds for every non-empty
    schedule; a sorted one in particular. *)
Theorem resolve_outside_range schedule first lst e current_rate :
  head schedule = Some first →
  last schedule = Some lst →
  e < first.1 ∨ e > lst.1 →
  _lr_schedule e current_rate schedule = Return current_rate.
Proof.
  intros Hf Hl Hout.
  rewrite (lr_schedule_unfold e current_rate schedule first lst Hf Hl).
  destruct (Z.ltb_spec e first.1) as [?|?]; [done|].
  destruct (Z.gtb_spec e lst.1) as [?|?]; [done|]. lia.
Qed.

(** C6: on a non-empty schedule, sorted or not, the helper raises nothing and
    returns a rate: [schedule[0]], [schedule[-1]] and every [schedule[i]] of
    the loop are in bounds. *)
Theorem resolve_total schedule e current_rate :
  schedule ≠ [] →
  ∃ r, _lr_schedule e current_rate schedule = Return r.
Proof.
  intros Hne.
  destruct (lr_schedule_nonempty e current_rate schedule Hne) as (? & ? & _ & _ & ->).
  eauto.
Qed.

(** C9: when the epoch passes the range test and some breakpoint carries it,
    the rate returned is that of the lowest-index breakpoint with that epoch,
    also when later breakpoints repeat the epoch. *)
Theorem resolve_first_of_duplicates schedule first lst (i : nat) e r current_rate :
  head schedule = Some first →
  last schedule = Some lst →
  first.1 ≤ e ≤ lst.1 →
  schedule !! i = Some (e, r) →
  (∀ j p, (j < i)%nat → schedule !! j = Some p → p.1 ≠ e) →
  _lr_schedule e current_rate schedule = Return r.
Proof.
  intros Hf Hl [Hlo Hhi] Hi Hbefore.
  rewrite (lr_schedule_unfold e current_rate schedule first lst Hf Hl).
  destruct (Z.ltb_spec e first.1) as [?|_]; [lia|].
  destruct (Z.gtb_spec e lst.1) as [?|_]; [lia|].
  f_equal. by apply (first_match_at e current_rate schedule i r).
Qed.

(** C10: the rate returned for a non-empty schedule is the current rate or one
    of the rates listed in the schedule. *)
Theorem resolve_rate_from_inputs schedule e current_rate :
  schedule ≠ [] →
  ∃ r, _lr_schedule e current_rate schedule = Return r
       ∧ (r = current_rate ∨ r ∈ schedule.*2).
Proof.
  intros Hne.
  destruct (nonempty_ends schedule Hne) as (first & lst & Hf & Hl).
  rewrite (lr_schedule_unfold e current_rate schedule first lst Hf Hl).
  eexists; split; [done|].
  destruct (e <? first.1); [by left|]. destruct (e >? lst.1); [by left|].
  apply first_match_range.
Qed.

(** X4: resolving again at the same epoch, from the rate just resolved, changes
    nothing: the callback may be run twice for an epoch. *)
Lemma lr_schedule_idempotent schedule e current_rate r :
  _lr_schedule e current_rate schedule = Return r →
  _lr_schedule e r schedule = Return r.
Proof.
  destruct schedule as [|p l] eqn:Hs; [by vm_compute|]. rewrite <- Hs.
  assert (schedule ≠ []) as Hne by (by rewrite Hs). clear Hs.
  destruct (lr_schedule_nonempty e current_rate schedule Hne)
    as (first & lst & Hf & Hl & ->).
  intros Hr. injection Hr as <-.
  rewrite (lr_schedule_unfold e _ schedule first lst Hf Hl).
  destruct (e <? first.1); [done|]. destruct (e >? lst.1); [done|].
  f_equal. apply first_match_again.
Qed.

End ResolveProperties.

(** ** Decimal numerals *)

Section Numerals.

Local Open Scope N_scope.

Lemma digit_value_digit (d : N) : d < 10 → Fmt.digit_value (Fmt.digit d) = Some d.
Proof.
  intros Hd. unfold Fmt.digit_value, Fmt.digit.
  rewrite N_ascii_embedding by lia.
  destruct (N.leb_spec 48 (48 + d)); [|lia].
  destruct (N.leb_spec (48 + d) 57); [|lia].
  cbn. f_equal. lia.
Qed.

Lemma numeral_value_acc_snoc (acc d : N) (s : list ascii) :
  d < 10 →
  Fmt.numeral_value_acc acc (s ++ [Fmt.digit d])
  = v ← Fmt.numeral_value_acc acc s; Some (10 * v + d).
Proof.
  intros Hd. revert acc. induction s as [|c s IH]; intros acc; cbn.
  - by rewrite digit_value_digit.
  - destruct (Fmt.digit_value c) as [x|]; cbn; [apply IH|done].
Qed.

Lemma length_fixed_digits (k : nat) (n : N) : length (Fmt.fixed_digits k n) = k.
Proof.
  revert n. induction k as [|k IH]; intros n; cbn; [done|].
  rewrite length_app, IH. cbn. lia.
Qed.

Lemma numeral_value_acc_fixed (k : nat) (n : N) :
  Fmt.numeral_value_acc 0 (Fmt.fixed_digits k n) = Some (n mod 10 ^ N.of_nat k).
Proof.
  revert n. induction k as [|k IH]; intros n.
  - cbn. by rewrite N.mod_1_r.
  - cbn [Fmt.fixed_digits].
    rewrite numeral_value_acc_snoc by (apply N.mod_lt; lia).
    rewrite IH. cbn. f_equal.
    rewrite Nat2N.inj_succ, N.pow_succ_r'.
    rewrite (N.Div0.mod_mul_r n 10 (10 ^ N.of_nat k)). lia.
Qed.

Lemma numeral_value_fixed (k : nat) (n : N) :
  (0 < k)%nat → n < 10 ^ N.of_nat k →
  Fmt.numeral_value (Fmt.fixed_digits k n) = Some n.
Proof.
  intros Hk Hn. unfold Fmt.numeral_value.
  destruct (Fmt.fixed_digits k n) eqn:Hs.
  - pose proof (length_fixed_digits k n) as Hlen. rewrite Hs in Hlen. cbn in Hlen. lia.
  - rewrite <- Hs, numeral_value_acc_fixed. by rewrite N.mod_small.
Qed.

Lemma ndigits_fuel_bound (fuel : nat) (n : N) :
  n < 2 ^ N.of_nat fuel → n < 10 ^ N.of_nat (Fmt.ndigits_fuel fuel n).
Proof.
  revert n. induction fuel as [|fuel IH]; intros n Hn.
  - cbn in *. lia.
  - cbn [Fmt.ndigits_fuel]. destruct (N.ltb_spec n 10) as [Hlt|Hge]; [cbn; lia|].
    rewrite Nat2N.inj_succ, N.pow_succ_r' in *.
    assert (n / 10 < 2 ^ N.of_nat fuel) as Hq.
    { apply N.Div0.div_lt_upper_bound. lia. }
    specialize (IH _ Hq).
    pose proof (N.div_mod n 10). pose proof (N.mod_lt n 10). lia.
Qed.

Lemma ndigits_bound (n : N) : n < 10 ^ N.of_nat (Fmt.ndigits n).
Proof.
  apply ndigits_fuel_bound. rewrite N2Nat.id. apply N.size_gt.
Qed.

Lemma ndigits_fuel_pos (fuel : nat) (n : N) : (1 ≤ Fmt.ndigits_fuel fuel n)%nat.
Proof. destruct fuel; cbn; [lia|]. destruct (n <? 10); lia. Qed.

Lemma ndigits_fuel_least (fuel k : nat) (n : N) :
  (1 ≤ k)%nat → n < 10 ^ N.of_nat k → (Fmt.ndigits_fuel fuel n ≤ k)%nat.
Proof.
  revert k n. induction fuel as [|fuel IH]; intros k n Hk Hn; cbn; [lia|].
  destruct (N.ltb_spec n 10) as [Hlt|Hge]; [lia|].
  destruct k as [|[|k]]; [lia| cbn in Hn; lia |].
  apply le_n_S, IH; [lia|].
  rewrite Nat2N.inj_succ, N.pow_succ_r' in Hn.
  apply N.Div0.div_lt_upper_bound. lia.
Qed.

Lemma numeral_value_decimal (n : N) : Fmt.numeral_value (Fmt.decimal n) = Some n.
Proof.
  apply numeral_value_fixed; [|apply ndigits_bound].
  pose proof (ndigits_fuel_pos (N.to_nat (N.size n)) n). unfold Fmt.ndigits. lia.
Qed.

Lemma numeral_value_acc_zeros (j : nat) (s : list ascii) :
  Fmt.numeral_value_acc 0 (replicate j "0"%char ++ s) = Fmt.numeral_value_acc 0 s.
Proof. induction j as [|j IH]; [done|]. cbn. apply IH. Qed.

Lemma length_pad (c : ascii) (width : nat) (s : list ascii) :
  length (Fmt.pad c width s) = (width `max` length s)%nat.
Proof. unfold Fmt.pad. rewrite length_app, length_replicate. lia. Qed.

End Numerals.

(** ** Rounding to six decimal places *)

Lemma round_half_even_spec (num den : N) :
  (0 < den)%N →
  let n := Fmt.round_half_even num den in
  2 * Z.abs (Z.of_N n * Z.of_N den - Z.of_N num) < Z.of_N den
  ∨ (2 * Z.abs (Z.of_N n * Z.of_N den - Z.of_N num) = Z.of_N den ∧ N.even n = true).
Proof.
  intros Hden. unfold Fmt.round_half_even.
  pose proof (N.div_mod num den ltac:(lia)) as Hdm.
  pose proof (N.mod_lt num den ltac:(lia)) as Hr.
  set (q := (num / den)%N) in *. set (r := (num mod den)%N) in *.
  assert (Z.of_N num = Z.of_N den * Z.of_N q + Z.of_N r) as Hz by lia.
  destruct (N.ltb_spec den (2 * r)) as [Hhi|Hlo]; cbn [orb].
  - left. rewrite N2Z.inj_add. lia.
  - destruct (N.eqb_spec (2 * r) den) as [Htie|Hne]; cbn [andb].
    + destruct (N.odd q) eqn:Hodd.
      * right. split; [rewrite N2Z.inj_add; lia|].
        by rewrite N.add_1_r, N.even_succ.
      * right. split; [lia|]. by rewrite <- N.negb_odd, Hodd.
    + left. lia.
Qed.

Lemma nearest_even_fraction (n : N) (a : Z) (d : positive) :
  nearest_even n (Qmake a d)
  ↔ 2 * Z.abs (Z.of_N n * Z.pos d - a) < Z.pos d
    ∨ (2 * Z.abs (Z.of_N n * Z.pos d - a) = Z.pos d ∧ N.even n = true).
Proof.
  unfold nearest_even, Qlt, Qeq, Qabs, Qminus, Qplus, Qopp, inject_Z.
  cbn [Qnum Qden]. rewrite !Pos.mul_1_l.
  replace (Z.of_N n * Z.pos d + - a * 1) with (Z.of_N n * Z.pos d - a) by lia.
  split; (intros [H|[H He]]; [left|right; split; [|done]]); lia.
Qed.

Lemma nearest_even_unique (n1 n2 : N) (x : Q) :
  nearest_even n1 x → nearest_even n2 x → n1 = n2.
Proof.
  destruct x as [a d]. rewrite !nearest_even_fraction. intros H1 H2.
  assert (Z.of_N n1 = Z.of_N n2 ∨ Z.of_N n1 = Z.of_N n2 + 1 ∨ Z.of_N n2 = Z.of_N n1 + 1)
    as [Heq|[Heq|Heq]] by (destruct H1 as [?|[? _]], H2 as [?|[? _]]; nia).
  - lia.
  - exfalso. assert (n1 = N.succ n2) as -> by lia.
    destruct H1 as [H1|[H1 E1]], H2 as [H2|[H2 E2]]; try nia.
    rewrite N.even_succ, <- N.negb_even, E2 in E1. done.
  - exfalso. assert (n2 = N.succ n1) as -> by lia.
    destruct H1 as [H1|[H1 E1]], H2 as [H2|[H2 E2]]; try nia.
    rewrite N.even_succ, <- N.negb_even, E1 in E2. done.
Qed.

Lemma scaled_nearest (s : bool) (m : positive) (e : Z) (v : Q) :
  Float.value (S754_finite s m e) = Some v →
  nearest_even (Fmt.scaled 6 m e) (Qabs v * inject_Z (10 ^ 6)).
Proof.
  intros Hv. cbn in Hv. injection Hv as <-.
  destruct e as [|k|k].
  - unfold Fmt.scaled, Qabs, Qmult, inject_Z. cbn [Qnum Qden Z.to_N Pos.mul].
    apply nearest_even_fraction. left. destruct s; cbn [Z.abs]; lia.
  - unfold Fmt.scaled, Qabs, Qmult, inject_Z. cbn [Qnum Qden Z.to_N Pos.mul].
    apply nearest_even_fraction. left.
    rewrite !N2Z.inj_mul, N2Z.inj_pow.
    assert (Z.abs ((if s then Z.neg m else Z.pos m) * 2 ^ Z.pos k) = Z.pos m * 2 ^ Z.pos k)
      as -> by (destruct s; lia).
    cbn [Z.of_N N.of_nat]. lia.
  - unfold Fmt.scaled.
    pose proof (round_half_even_spec (N.pos m * 10 ^ N.of_nat 6) (2 ^ N.pos k)
                  ltac:(done)) as Hn.
    cbn zeta in Hn. set (n := Fmt.round_half_even _ _) in *.
    change (2 ^ N.pos k)%N with (N.pos (2 ^ k)) in Hn.
    assert ((Qabs (Qmake (if s then Z.neg m else Z.pos m) (2 ^ k)) * inject_Z (10 ^ 6))%Q
            = Qmake (Z.pos m * 10 ^ 6) (2 ^ k)) as ->.
    { unfold Qabs, Qmult, inject_Z. cbn [Qnum Qden]. rewrite Pos.mul_1_r.
      by destruct s. }
    apply nearest_even_fraction.
    replace (Z.of_N (N.pos m * 10 ^ N.of_nat 6)) with (Z.pos m * 10 ^ 6) in Hn by lia.
    exact Hn.
Qed.

(** ** Decimal numerals are determined by what they denote *)

Lemma length_decimal (n : N) : length (Fmt.decimal n) = Fmt.ndigits n.
Proof. apply length_fixed_digits. Qed.

Section NumeralsUnique.

Local Open Scope N_scope.

Lemma digit_value_inv (c : ascii) (d : N) :
  Fmt.digit_value c = Some d → d < 10 ∧ c = Fmt.digit d.
Proof.
  unfold Fmt.digit_value, Fmt.digit. intros H.
  destruct (N.leb_spec 48 (N_of_ascii c)) as [Hlo|]; [|done].
  destruct (N.leb_spec (N_of_ascii c) 57) as [Hhi|]; [|done].
  cbn in H. injection H as <-. split; [lia|].
  replace (48 + (N_of_ascii c - 48)) with (N_of_ascii c) by lia.
  by rewrite ascii_N_embedding.
Qed.

Lemma numeral_acc_bounds (acc v : N) (s : list ascii) :
  Fmt.numeral_value_acc acc s = Some v →
  acc * 10 ^ N.of_nat (length s) ≤ v < (acc + 1) * 10 ^ N.of_nat (length s).
Proof.
  revert acc. induction s as [|c s IH]; intros acc H.
  - cbn in *. injection H as <-. lia.
  - cbn [Fmt.numeral_value_acc] in H.
    destruct (Fmt.digit_value c) as [d|] eqn:Hd; [|done]. cbn in H.
    apply digit_value_inv in Hd as [Hd _]. apply IH in H.
    cbn [length]. rewrite Nat2N.inj_succ, N.pow_succ_r'. nia.
Qed.

Lemma numeral_acc_inj (a1 a2 v : N) (s1 s2 : list ascii) :
  Fmt.numeral_value_acc a1 s1 = Some v →
  Fmt.numeral_value_acc a2 s2 = Some v →
  length s1 = length s2 →
  a1 = a2 ∧ s1 = s2.
Proof.
  revert a1 a2 s2. induction s1 as [|c1 s1 IH]; intros a1 a2 [|c2 s2] H1 H2 Hlen;
    try done.
  - cbn in *. split; [congruence|done].
  - cbn [Fmt.numeral_value_acc] in H1, H2.
    destruct (Fmt.digit_value c1) as [d1|] eqn:Hd1; [|done].
    destruct (Fmt.digit_value c2) as [d2|] eqn:Hd2; [|done]. cbn in H1, H2.
    apply digit_value_inv in Hd1 as [Hd1 ->], Hd2 as [Hd2 ->].
    destruct (IH _ _ _ H1 H2) as [Hacc ->]; [by injection Hlen|].
    assert (a1 = a2 ∧ d1 = d2) as [-> ->] by lia. done.
Qed.

Lemma numeral_value_acc_of (v : N) (s : list ascii) :
  Fmt.numeral_value s = Some v → Fmt.numeral_value_acc 0 s = Some v.
Proof. by destruct s. Qed.

Lemma numeral_same_length (v : N) (s1 s2 : list ascii) :
  Fmt.numeral_value s1 = Some v → Fmt.numeral_value s2 = Some v →
  length s1 = length s2 → s1 = s2.
Proof.
  intros H1%numeral_value_acc_of H2%numeral_value_acc_of Hlen.
  by destruct (numeral_acc_inj 0 0 v s1 s2 H1 H2 Hlen).
Qed.

Lemma numeral_upper (v : N) (s : list ascii) :
  Fmt.numeral_value s = Some v → v < 10 ^ N.of_nat (length s).
Proof. intros H%numeral_value_acc_of%numeral_acc_bounds. lia. Qed.

Lemma numeral_lower (v : N) (s : list ascii) :
  Fmt.numeral_value s = Some v → head s ≠ Some "0"%char →
  10 ^ N.of_nat (pred (length s)) ≤ v.
Proof.
  destruct s as [|c s]; [done|]. cbn [Fmt.numeral_value Fmt.numeral_value_acc].
  intros H Hhead. destruct (Fmt.digit_value c) as [d|] eqn:Hd; [|done]. cbn in H.
  apply digit_value_inv in Hd as [Hd ->]. apply numeral_acc_bounds in H.
  assert (d ≠ 0) as Hd0 by (intros ->; by apply Hhead).
  cbn [length pred]. nia.
Qed.

Lemma zero_padded_unique (width : nat) (n : N) (s1 s2 : list ascii) :
  zero_padded width n s1 → zero_padded width n s2 → s1 = s2.
Proof.
  intros (Hw1 & Hh1 & Hv1) (Hw2 & Hh2 & Hv2).
  apply (numeral_same_length n); [done|done|].
  pose proof (numeral_upper n s1 Hv1) as Hu1.
  pose proof (numeral_upper n s2 Hv2) as Hu2.
  destruct (Nat.lt_trichotomy (length s1) (length s2)) as [Hlt|[Heq|Hlt]]; [|done|].
  - exfalso. pose proof (numeral_lower n s2 Hv2 (Hh2 ltac:(lia))) as Hl2.
    pose proof (N.pow_le_mono_r 10 (N.of_nat (length s1)) (N.of_nat (pred (length s2)))
                  ltac:(lia) ltac:(lia)).
    lia.
  - exfalso. pose proof (numeral_lower n s1 Hv1 (Hh1 ltac:(lia))) as Hl1.
    pose proof (N.pow_le_mono_r 10 (N.of_nat (length s2)) (N.of_nat (pred (length s1)))
                  ltac:(lia) ltac:(lia)).
    lia.
Qed.

Lemma ndigits_fuel_lower (fuel : nat) (n : N) :
  (1 < Fmt.ndigits_fuel fuel n)%nat →
  10 ^ N.of_nat (pred (Fmt.ndigits_fuel fuel n)) ≤ n.
Proof.
  revert n. induction fuel as [|fuel IH]; intros n; cbn [Fmt.ndigits_fuel]; [lia|].
  destruct (N.ltb_spec n 10) as [?|Hge]; [lia|]. intros _. cbn [pred].
  pose proof (N.div_mod n 10 ltac:(lia)). pose proof (N.mod_lt n 10 ltac:(lia)).
  destruct (decide (1 < Fmt.ndigits_fuel fuel (n / 10))%nat) as [Hbig|Hsmall].
  - specialize (IH _ Hbig).
    replace (Fmt.ndigits_fuel fuel (n / 10))
      with (S (pred (Fmt.ndigits_fuel fuel (n / 10)))) at 1 by lia.
    rewrite Nat2N.inj_succ, N.pow_succ_r'.
    generalize dependent (10 ^ N.of_nat (pred (Fmt.ndigits_fuel fuel (n / 10)))).
    intros p Hp. generalize dependent (n mod 10). intros r Hr Hdm. lia.
  - pose proof (ndigits_fuel_pos fuel (n / 10)).
    replace (Fmt.ndigits_fuel fuel (n / 10)) with 1%nat by lia. cbn. lia.
Qed.

Lemma decimal_head (n : N) :
  (1 < length (Fmt.decimal n))%nat → head (Fmt.decimal n) ≠ Some "0"%char.
Proof.
  rewrite length_decimal. intros Hbig Hhead.
  pose proof (ndigits_fuel_lower _ n Hbig) as Hlow. fold (Fmt.ndigits n) in Hlow.
  pose proof (numeral_value_decimal n) as Hv.
  pose proof (length_decimal n) as Hlen.
  destruct (Fmt.decimal n) as [|c s]; [done|]. cbn in Hhead. injection Hhead as ->.
  cbn [Fmt.numeral_value Fmt.numeral_value_acc] in Hv. cbn in Hv.
  apply numeral_acc_bounds in Hv. cbn [length] in Hlen.
  replace (pred (Fmt.ndigits n)) with (length s) in Hlow by lia.
  change (N_of_ascii "0" - 48) with 0 in Hv. lia.
Qed.

Lemma decimal_zero_padded (n : N) : zero_padded 1 n (Fmt.decimal n).
Proof.
  split; [|split].
  - rewrite length_decimal. apply ndigits_fuel_pos.
  - apply decimal_head.
  - apply numeral_value_decimal.
Qed.

End NumeralsUnique.

(** ** The two conversions of the log line *)

Lemma numeral_value_nonempty (s : list ascii) :
  s ≠ [] → Fmt.numeral_value s = Fmt.numeral_value_acc 0 s.
Proof. by destruct s. Qed.

Lemma pad_long (c : ascii) (width : nat) (s : list ascii) :
  (width ≤ length s)%nat → Fmt.pad c width s = s.
Proof.
  intros Hlen. unfold Fmt.pad.
  by replace (width - length s)%nat with 0%nat by lia.
Qed.

Lemma decimal_nonempty (n : N) : Fmt.decimal n ≠ [].
Proof.
  intros Hnil. pose proof (numeral_value_decimal n) as Hv.
  by rewrite Hnil in Hv.
Qed.

Lemma format_d_zero_at_least_five (epoch : Z) :
  0 ≤ epoch → at_least_five_digits epoch (Fmt.format_d_zero 5 epoch).
Proof.
  intros Hpos. unfold Fmt.format_d_zero.
  destruct (Z.ltb_spec epoch 0) as [?|_]; [lia|].
  replace (Z.abs_N epoch) with (Z.to_N epoch) by lia.
  set (n := Z.to_N epoch).
  split; [|split].
  - rewrite length_pad. lia.
  - rewrite length_pad. intros Hlong.
    rewrite pad_long by lia. apply decimal_head. lia.
  - rewrite numeral_value_nonempty.
    + unfold Fmt.pad. rewrite numeral_value_acc_zeros.
      rewrite <- numeral_value_nonempty by apply decimal_nonempty.
      apply numeral_value_decimal.
    + unfold Fmt.pad. intros Hnil. apply app_eq_nil in Hnil as [_ Hnil].
      by apply decimal_nonempty in Hnil.
Qed.

(** Below 100000 the epoch field has exactly five digits. *)
Lemma at_least_five_digits_below (epoch : Z) (field : list ascii) :
  at_least_five_digits epoch field → epoch < 100000 → length field = 5%nat.
Proof.
  intros (Hw & Hh & Hv) Hlt.
  destruct (decide (5 < length field)%nat) as [Hlong|]; [|lia].
  pose proof (numeral_lower _ _ Hv (Hh Hlong)) as Hlow.
  pose proof (N.pow_le_mono_r 10 5 (N.of_nat (pred (length field)))
                ltac:(lia) ltac:(lia)) as Hpow.
  change (10 ^ 5)%N with 100000%N in Hpow. lia.
Qed.

Lemma fixed_point_six (n : N) :
  ∃ int_part frac_part : list ascii,
    Fmt.fixed_point 6 n = int_part ++ "."%char :: frac_part
    ∧ zero_padded 1 (n / 10 ^ 6)%N int_part
    ∧ length frac_part = 6%nat
    ∧ Fmt.numeral_value frac_part = Some (n mod 10 ^ 6)%N.
Proof.
  exists (Fmt.decimal (n / 10 ^ 6)), (Fmt.fixed_digits 6 n).
  split; [done|]. split; [apply decimal_zero_padded|].
  split; [apply length_fixed_digits|].
  rewrite numeral_value_nonempty.
  - apply (numeral_value_acc_fixed 6 n).
  - intros Hnil. pose proof (length_fixed_digits 6 n) as Hlen.
    by rewrite Hnil in Hlen.
Qed.

Lemma format_f_six_places (rate : float) :
  Float.is_finite rate = true → rate_to_six_places rate (Fmt.format_f 6 6 rate).
Proof.
  intros Hfin.
  assert (∃ v n, Float.value rate = Some v
                 ∧ nearest_even n (Qabs v * inject_Z (10 ^ 6))
                 ∧ Fmt.format_f 6 6 rate
                   = Fmt.pad " "%char 6
                       (Fmt.sign_text (Float.sign rate) ++ Fmt.fixed_point 6 n))
    as (v & n & Hv & Hn & Hfmt).
  { destruct rate as [s|s| |s m e]; try done.
    - exists 0%Q, 0%N. split; [done|]. split; [|done].
      apply (nearest_even_fraction 0 0 1). left. lia.
    - eexists _, (Fmt.scaled 6 m e). split; [done|]. split; [|done].
      by apply (scaled_nearest s m e). }
  destruct (fixed_point_six n) as (int_part & frac_part & Hfp & Hint & Hlen & Hfrac).
  exists v, n, int_part, frac_part. repeat split; try done; try apply Hint.
  rewrite Hfmt, Hfp. apply pad_long.
  rewrite !length_app. cbn [length]. lia.
Qed.

(** The form pins the text: a rate field and an epoch field are determined
    by the rate and the epoch they write. *)
Lemma rate_to_six_places_unique (rate : float) (field1 field2 : list ascii) :
  rate_to_six_places rate field1 → rate_to_six_places rate field2 → field1 = field2.
Proof.
  intros (v1 & n1 & i1 & f1 & Hv1 & Hn1 & -> & Hi1 & Hl1 & Hf1)
         (v2 & n2 & i2 & f2 & Hv2 & Hn2 & -> & Hi2 & Hl2 & Hf2).
  rewrite Hv1 in Hv2. injection Hv2 as <-.
  pose proof (nearest_even_unique n1 n2 _ Hn1 Hn2) as <-.
  rewrite (zero_padded_unique 1 _ i1 i2 Hi1 Hi2).
  by rewrite (numeral_same_length _ f1 f2 Hf1 Hf2 ltac:(congruence)).
Qed.

Lemma log_line_unique (epoch : Z) (rate : float) (line1 line2 : list ascii) :
  log_line at_least_five_digits epoch rate line1 →
  log_line at_least_five_digits epoch rate line2 →
  line1 = line2.
Proof.
  intros (E1 & R1 & -> & HE1 & HR1) (E2 & R2 & -> & HE2 & HR2).
  rewrite (zero_padded_unique 5 _ E1 E2 HE1 HE2).
  by rewrite (rate_to_six_places_unique rate R1 R2 HR1 HR2).
Qed.

(** ** The float32 variable *)

Section Float32.

Import Float.

Lemma iter_pos_nat {A : Type} (f : A → A) (p : positive) (x : A) :
  SpecFloat.iter_pos f p x = Nat.iter (Pos.to_nat p) f x.
Proof.
  revert x. induction p as [p IH|p IH|]; intros x; cbn [SpecFloat.iter_pos].
  - rewrite !IH. rewrite Pos2Nat.inj_xI.
    replace (S (2 * Pos.to_nat p)) with (Pos.to_nat p + (Pos.to_nat p + 1))%nat by lia.
    rewrite !Nat.iter_add. cbn. done.
  - rewrite !IH. rewrite Pos2Nat.inj_xO.
    replace (2 * Pos.to_nat p)%nat with (Pos.to_nat p + Pos.to_nat p)%nat by lia.
    by rewrite Nat.iter_add.
  - done.
Qed.

Lemma shr_shl (m : positive) (k : nat) :
  Nat.iter k shr_1 (Build_shr_record (Z.pos (Nat.iter k xO m)) false false)
  = Build_shr_record (Z.pos m) false false.
Proof.
  induction k as [|k IH]; [done|].
  change (Nat.iter (S k) xO m) with (xO (Nat.iter k xO m)).
  rewrite Nat.iter_succ_r. exact IH.
Qed.

Lemma digits2_shl (m : positive) (k : nat) :
  Z.pos (digits2_pos (Nat.iter k xO m)) = Z.pos (digits2_pos m) + Z.of_nat k.
Proof.
  induction k as [|k IH]; [cbn; lia|].
  change (Nat.iter (S k) xO m) with (xO (Nat.iter k xO m)).
  cbn [digits2_pos]. rewrite Pos2Z.inj_succ, IH. lia.
Qed.

(** Rounding stays in the format. *)

Lemma digits2_bounds (m : positive) :
  2 ^ (Z.pos (digits2_pos m) - 1) ≤ Z.pos m < 2 ^ Z.pos (digits2_pos m).
Proof.
  induction m as [m IH|m IH|]; cbn [digits2_pos]; [| |cbn; lia].
  - rewrite Pos2Z.inj_succ, Z.pow_succ_r by lia.
    replace (Z.succ (Z.pos (digits2_pos m)) - 1)
      with (Z.succ (Z.pos (digits2_pos m) - 1)) by lia.
    rewrite Z.pow_succ_r by lia. lia.
  - rewrite Pos2Z.inj_succ, Z.pow_succ_r by lia.
    replace (Z.succ (Z.pos (digits2_pos m)) - 1)
      with (Z.succ (Z.pos (digits2_pos m) - 1)) by lia.
    rewrite Z.pow_succ_r by lia. lia.
Qed.

Lemma Zdigits2_nonneg (m : Z) : 0 ≤ Zdigits2 m.
Proof. destruct m; cbn; lia. Qed.

Lemma Zdigits2_lt (m d : Z) : 0 ≤ m → 0 ≤ d → m < 2 ^ d → Zdigits2 m ≤ d.
Proof.
  intros Hm Hd Hlt. destruct m as [|p|p]; [cbn; lia| |lia]. cbn [Zdigits2].
  pose proof (digits2_bounds p) as [Hlo _].
  destruct (Z.le_gt_cases (Z.pos (digits2_pos p)) d) as [|Hgt]; [done|].
  pose proof (Z.pow_le_mono_r 2 d (Z.pos (digits2_pos p) - 1) ltac:(lia) ltac:(lia)).
  lia.
Qed.

Lemma Zdigits2_ge (m d : Z) : 0 ≤ d → 2 ^ d ≤ m → d < Zdigits2 m.
Proof.
  intros Hd Hle. assert (0 < 2 ^ d) by (apply Z.pow_pos_nonneg; lia).
  destruct m as [|p|p]; [lia| |lia]. cbn [Zdigits2].
  pose proof (digits2_bounds p) as [_ Hhi].
  destruct (Z.lt_ge_cases d (Z.pos (digits2_pos p))) as [|Hge]; [done|].
  pose proof (Z.pow_le_mono_r 2 (Z.pos (digits2_pos p)) d ltac:(lia) ltac:(lia)).
  lia.
Qed.

Lemma Zdigits2_mono (a b : Z) : 0 ≤ a → a ≤ b → Zdigits2 a ≤ Zdigits2 b.
Proof.
  intros Ha Hab. destruct a as [|p|p]; [apply Zdigits2_nonneg| |lia].
  destruct b as [|q|q]; [lia| |lia].
  apply Zdigits2_lt; [lia|done|].
  pose proof (digits2_bounds q) as [_ Hhi]. cbn [Zdigits2]. lia.
Qed.

(** Shifting [n] bits out takes [n] digits away, down to none. *)
Lemma Zdigits2_shift (m n : Z) :
  0 ≤ m → 0 ≤ n →
  (m / 2 ^ n = 0 ∧ Zdigits2 m ≤ n)
  ∨ (0 < m / 2 ^ n ∧ Zdigits2 (m / 2 ^ n) = Zdigits2 m - n).
Proof.
  intros Hm Hn. assert (0 < 2 ^ n) as Hpow by (apply Z.pow_pos_nonneg; lia).
  destruct (Z.lt_ge_cases m (2 ^ n)) as [Hsmall|Hbig].
  - left. split; [apply Z.div_small; lia | by apply Zdigits2_lt].
  - right. assert (0 < m / 2 ^ n) as Hq by (apply Z.div_str_pos; lia).
    split; [done|].
    destruct m as [|p|p]; [lia| |lia].
    pose proof (Zdigits2_ge (Z.pos p) n Hn Hbig) as Hd. cbn [Zdigits2] in Hd |- *.
    pose proof (digits2_bounds p) as [Hlo Hhi].
    set (d := Z.pos (digits2_pos p)) in *.
    assert (2 ^ d = 2 ^ n * 2 ^ (d - n)) as Hsplit
      by (rewrite <- Z.pow_add_r by lia; f_equal; lia).
    assert (2 ^ (d - 1) = 2 ^ n * 2 ^ (d - n - 1)) as Hsplit'
      by (rewrite <- Z.pow_add_r by lia; f_equal; lia).
    assert (2 ^ (d - n - 1) ≤ Z.pos p / 2 ^ n) as Hql
      by (apply Z.div_le_lower_bound; lia).
    assert (Z.pos p / 2 ^ n < 2 ^ (d - n)) as Hqh
      by (apply Z.div_lt_upper_bound; lia).
    clear Hbig Hlo Hhi Hsplit Hsplit'. generalize dependent (Z.pos p / 2 ^ n).
    intros q Hq Hql Hqh.
    pose proof (Zdigits2_lt q (d - n) ltac:(lia) ltac:(lia) Hqh).
    pose proof (Zdigits2_ge q (d - n - 1) ltac:(lia) Hql).
    lia.
Qed.

Lemma shr_1_m (mrs : shr_record) :
  0 ≤ shr_m mrs → shr_m (shr_1 mrs) = shr_m mrs / 2.
Proof.
  destruct mrs as [m r s]. cbn [shr_m]. intros Hm.
  destruct m as [|[q|q|]|q]; cbn [shr_1 shr_m]; [done| | |done|lia].
  - apply (Z.div_unique _ 2 _ 1); lia.
  - apply (Z.div_unique _ 2 _ 0); lia.
Qed.

Lemma shr_iter_m (k : nat) (mrs : shr_record) :
  0 ≤ shr_m mrs → shr_m (Nat.iter k shr_1 mrs) = shr_m mrs / 2 ^ Z.of_nat k.
Proof.
  intros Hm. induction k as [|k IH]; [cbn; by rewrite Z.div_1_r|].
  cbn [Nat.iter nat_rect]. rewrite shr_1_m.
  - fold (Nat.iter k shr_1 mrs). rewrite IH, Nat2Z.inj_succ, Z.pow_succ_r by lia.
    rewrite Z.div_div by lia. f_equal. lia.
  - fold (Nat.iter k shr_1 mrs). rewrite IH. apply Z.div_pos; [done|].
    apply Z.pow_pos_nonneg; lia.
Qed.

Lemma shr_record_of_loc_m (m : Z) (l : location) : shr_m (shr_record_of_loc m l) = m.
Proof. by destruct l as [|[]]. Qed.

Section Rounding.

Variables p emx : Z.
Hypothesis p_pos : 0 < p.

(** What [shr_fexp] gives on a number whose exponent is not above the
    format's: the exponent of the format, and the mantissa shifted to it. *)
Lemma shr_fexp_spec (m e : Z) (l : location) :
  0 ≤ m → e ≤ fexp p emx (Zdigits2 m + e) →
  ∃ mrs e',
    shr_fexp p emx m e l = (mrs, e')
    ∧ 0 ≤ shr_m mrs
    ∧ e' ≤ fexp p emx (Zdigits2 (shr_m mrs) + e')
    ∧ (0 < shr_m mrs → fexp p emx (Zdigits2 (shr_m mrs) + e') = e').
Proof.
  intros Hm He. unfold shr_fexp, shr.
  destruct (fexp p emx (Zdigits2 m + e) - e) as [|n|n] eqn:Hn; [| |lia].
  - eexists _, _. split; [done|]. rewrite shr_record_of_loc_m. repeat split; lia.
  - eexists _, _. split; [done|]. rewrite iter_pos_nat, shr_iter_m, shr_record_of_loc_m
      by (by rewrite shr_record_of_loc_m).
    rewrite positive_nat_Z.
    destruct (Zdigits2_shift m (Z.pos n) Hm ltac:(lia)) as [[-> Hd]|[Hq ->]].
    + cbn [Zdigits2]. unfold fexp, emin in *. lia.
    + replace (Zdigits2 m - Z.pos n + (e + Z.pos n)) with (Zdigits2 m + e) by lia.
      lia.
Qed.

Lemma round_nearest_even_ge (m : Z) (l : location) :
  m ≤ round_nearest_even m l ≤ m + 1.
Proof. destruct l as [|[]]; cbn; [lia| |lia|lia]. destruct (Z.even m); lia. Qed.

Lemma fexp_mono (a b : Z) : a ≤ b → fexp p emx a ≤ fexp p emx b.
Proof. unfold fexp. lia. Qed.

Lemma binary_round_aux_valid (s : bool) (m : positive) (e : Z) (l : location) :
  e ≤ fexp p emx (Z.pos (digits2_pos m) + e) →
  valid_binary p emx (binary_round_aux p emx s (Z.pos m) e l) = true.
Proof.
  intros He. unfold binary_round_aux.
  destruct (shr_fexp_spec (Z.pos m) e l ltac:(lia) He) as (mrs1 & e1 & -> & Hm1 & He1 & _).
  pose proof (round_nearest_even_ge (shr_m mrs1) (loc_of_shr_record mrs1)) as Hr.
  set (m1 := round_nearest_even _ _) in *.
  destruct (shr_fexp_spec m1 e1 loc_Exact ltac:(lia)) as (mrs2 & e2 & -> & Hm2 & _ & Hc).
  { etrans; [exact He1|]. apply fexp_mono.
    pose proof (Zdigits2_mono (shr_m mrs1) m1 Hm1 ltac:(lia)). lia. }
  destruct (shr_m mrs2) as [|m2|m2] eqn:Hm; [done| |done].
  destruct (Z.leb_spec e2 (emx - p)) as [Hle|]; [|done].
  cbn [valid_binary]. unfold bounded, canonical_mantissa.
  apply andb_true_intro. split; [|by apply Z.leb_le].
  apply Z.eqb_eq. apply Hc. lia.
Qed.

Lemma binary_round_valid (s : bool) (m : positive) (e : Z) :
  valid_binary p emx (binary_round p emx s m e) = true.
Proof.
  unfold binary_round, shl_align.
  destruct (fexp p emx (Z.pos (digits2_pos m) + e) - e) as [|d|d] eqn:Hd.
  - apply binary_round_aux_valid. lia.
  - apply binary_round_aux_valid. lia.
  - apply binary_round_aux_valid. unfold shift_pos. rewrite Pos2Nat.inj_iter.
    change (nat_rect (λ _, positive) m (λ _, xO) (Pos.to_nat d))
      with (Nat.iter (Pos.to_nat d) xO m).
    rewrite digits2_shl, positive_nat_Z.
    replace (Z.pos (digits2_pos m) + Z.pos d + fexp p emx (Z.pos (digits2_pos m) + e))
      with (Z.pos (digits2_pos m) + e) by lia.
    lia.
Qed.

End Rounding.

Lemma digits2_le_prec32 (m : positive) (e : Z) :
  canonical_mantissa 24 128 m e = true → Z.pos (digits2_pos m) ≤ 24 ∧ -149 ≤ e.
Proof.
  unfold canonical_mantissa, fexp, emin. intros H%Z.eqb_eq. lia.
Qed.

(** Rounding a number that is already in the format gives it back. *)
Lemma round_aux_canonical (p emx : Z) (s : bool) (m : positive) (e : Z) :
  bounded p emx m e = true →
  binary_round_aux p emx s (Z.pos m) e loc_Exact = S754_finite s m e.
Proof.
  intros Hb. apply andb_prop in Hb as [Hc He].
  unfold canonical_mantissa in Hc. apply Z.eqb_eq in Hc.
  unfold binary_round_aux, shr_fexp. cbn [Zdigits2 shr_record_of_loc].
  rewrite Hc, Z.sub_diag. cbn [shr shr_m loc_of_shr_record round_nearest_even Zdigits2].
  rewrite Hc, Z.sub_diag. cbn [shr shr_m]. by rewrite He.
Qed.

(** Widening shifts the mantissa to 53 bits. *)
Lemma widen_finite (s : bool) (m : positive) (e : Z) :
  bounded 24 128 m e = true →
  binary_round 53 1024 s m e
  = S754_finite s (Nat.iter (Z.to_nat (53 - Z.pos (digits2_pos m))) xO m)
      (e - (53 - Z.pos (digits2_pos m))).
Proof.
  intros Hb. apply andb_prop in Hb as [Hc He]. apply Z.leb_le in He.
  pose proof (digits2_le_prec32 m e Hc) as [Hd Hlo].
  unfold binary_round, shl_align.
  remember (Z.pos (digits2_pos m)) as d eqn:Hdd.
  assert (fexp 53 1024 (d + e) = d + e - 53) as -> by (unfold fexp, emin; lia).
  destruct (d + e - 53 - e) as [|p|p] eqn:Hp; try lia.
  rewrite Pos2Nat.inj_iter.
  change (nat_rect (λ _, positive) m (λ _, xO) (Pos.to_nat p))
    with (Nat.iter (Pos.to_nat p) xO m).
  replace (Z.to_nat (53 - d)) with (Pos.to_nat p) by lia.
  replace (e - (53 - d)) with (d + e - 53) by lia.
  apply round_aux_canonical. apply andb_true_intro. split.
  - unfold canonical_mantissa. apply Z.eqb_eq. rewrite digits2_shl, <- Hdd.
    unfold fexp, emin. lia.
  - apply Z.leb_le. lia.
Qed.

Lemma round32_back (s : bool) (m : positive) (e : Z) :
  bounded 24 128 m e = true →
  binary_round 24 128 s (Nat.iter (Z.to_nat (53 - Z.pos (digits2_pos m))) xO m)
      (e - (53 - Z.pos (digits2_pos m)))
  = S754_finite s m e.
Proof.
  intros Hb. pose proof Hb as Hb'. apply andb_prop in Hb' as [Hc He].
  apply Z.leb_le in He.
  pose proof (digits2_le_prec32 m e Hc) as [Hd _].
  pose proof Hc as Hc'. unfold canonical_mantissa in Hc'. apply Z.eqb_eq in Hc'.
  remember (Z.pos (digits2_pos m)) as d eqn:Hdd.
  remember (Z.to_nat (53 - d)) as k eqn:Hk.
  assert (Z.pos (digits2_pos (Nat.iter k xO m)) = 53) as Hdz.
  { rewrite digits2_shl, <- Hdd. lia. }
  remember (Nat.iter k xO m) as mz eqn:Hmz.
  unfold binary_round, shl_align. rewrite Hdz.
  replace (53 + (e - (53 - d))) with (d + e) by lia. rewrite Hc'.
  destruct (e - (e - (53 - d))) as [|p|p] eqn:Hp; try lia.
  unfold binary_round_aux, shr_fexp. cbn [Zdigits2 shr_record_of_loc]. rewrite Hdz.
  replace (53 + (e - (53 - d))) with (d + e) by lia. rewrite Hc', Hp.
  cbn [shr]. rewrite iter_pos_nat.
  replace (Pos.to_nat p) with k by lia. rewrite Hmz, shr_shl.
  cbn [shr_m loc_of_shr_record round_nearest_even Zdigits2].
  replace (e - (53 - d) + Z.pos p) with e by lia. rewrite <- Hdd, Hc', Z.sub_diag.
  cbn [shr shr_m].
  destruct (Z.leb_spec e (128 - 24)); [done|lia].
Qed.

Lemma round32_widen (x : float32) : round32 (widen x) = `x.
Proof.
  destruct x as [y Hy]. unfold widen. cbn [proj1_sig].
  destruct y as [s|s| |s m e]; try done.
  apply Is_true_true in Hy. cbn in Hy.
  change (binary_round prec emax s m e) with (binary_round 53 1024 s m e).
  rewrite (widen_finite s m e Hy). cbn [round32]. by apply round32_back.
Qed.

(** What a [float32] variable gives is stored back unchanged. *)
Lemma to_f32_widen (x : float32) : to_f32 (widen x) = x.
Proof.
  unfold to_f32. rewrite round32_widen. unfold checked32.
  destruct (decide (Is_true (valid32 (`x)))) as [H|H].
  - by apply (sig_eq_pi _).
  - destruct H. apply (proj2_sig x).
Qed.

(** Storing rounds, and does nothing else. *)
Lemma to_f32_rounds (x : float) : proj1_sig (to_f32 x) = round32 x.
Proof.
  unfold to_f32, checked32.
  destruct (decide (Is_true (valid32 (round32 x)))) as [H|H]; [done|].
  destruct H. apply Is_true_true. destruct x as [s|s| |s m e]; try done.
  by apply binary_round_valid.
Qed.

End Float32.

(** The script's rates as the variable keeps them: [0.001] becomes
    [0.0010000000474974513], and Adam's [0.0001] is read back as
    [9.999999747378752e-05]. *)
Example float32_of_one_thousandth :
  Float.widen (Float.to_f32 (Float.literal 1 3))
  = S754_finite false 0x10624de0000000 (-62)
  ∧ Float.widen (Float.to_f32 (Float.literal 1 4))
    = S754_finite false 0x1a36e2e0000000 (-66).
Proof. split; vm_compute; reflexivity. Qed.

(** ** The callback *)

Lemma lr_schedule_raises_index_only {Rate : Type} (epoch : Z) (lr : Rate)
    (sched : list (Z * Rate)) (ex : exception) :
  _lr_schedule epoch lr sched = Raise ex → ex = IndexError.
Proof.
  destruct sched as [|p sched].
  - intros Hraise. vm_compute in Hraise. congruence.
  - destruct (lr_schedule_nonempty epoch lr (p :: sched) ltac:(done))
      as (? & ? & _ & _ & ->). done.
Qed.

(** The helper run in the world is the helper: each of its statements is an
    indexing, a comparison or a return. *)
Lemma lr_schedule_call_loop_lift (epoch : Z) (lr : float) (sched : list (Z * float))
    (indices : list nat) (w : world) :
  _lr_schedule_call_loop epoch lr sched indices w
  = (_lr_schedule_loop epoch lr sched indices, w).
Proof.
  induction indices as [|i rest IH]; [done|].
  cbn [_lr_schedule_call_loop _lr_schedule_loop]. unfold mbind, M_bind, lift.
  destruct (Py.getitem sched (Z.of_nat i)) as [p|ex]; [|done].
  cbn. destruct (epoch =? p.1); [done|apply IH].
Qed.

Lemma lr_schedule_call_lift (epoch : Z) (lr : float) (sched : list (Z * float))
    (w : world) :
  _lr_schedule_call epoch lr sched w = (_lr_schedule epoch lr sched, w).
Proof.
  unfold _lr_schedule_call, _lr_schedule, mbind, M_bind, lift.
  destruct (Py.getitem sched 0) as [first|ex]; [|done].
  cbn. destruct (epoch <? first.1); [done|].
  destruct (Py.getitem sched (-1)) as [lst|ex]; [|done].
  cbn. destruct (epoch >? lst.1); [done|].
  apply lr_schedule_call_loop_lift.
Qed.

Section Callback.

Context (self : EpochBasedLearningRateSchedule).

Let attrs : gmap string loc := attributes (optimizer (model self)).

Lemma on_epoch_begin_without_lr (epoch : Z) (w : world) :
  attrs !! "lr" = None →
  on_epoch_begin self epoch w = (Raise (ValueError lr_missing_message), w).
Proof.
  intros Hno. unfold on_epoch_begin, hasattr. fold attrs. rewrite Hno.
  rewrite bool_decide_eq_false_2; [done|]. by intros [? ?].
Qed.

Lemma on_epoch_begin_run (epoch : Z) (w : world) (source target : loc) :
  attrs !! "learning_rate" = Some source →
  attrs !! "lr" = Some target →
  on_epoch_begin self epoch w
  = match _lr_schedule epoch (Float.widen (heap w source)) (schedule self) with
    | Return r =>
        (Return (),
         {| heap := λ l, if decide (l = target) then Float.to_f32 r else heap w l;
            trace := trace w ++ [GetValue source (heap w source);
                                 SetValue target r;
                                 Print (epoch_message epoch r)] |})
    | Raise ex =>
        (Raise ex,
         {| heap := heap w;
            trace := trace w ++ [GetValue source (heap w source)] |})
    end.
Proof.
  intros Hsrc Htgt. unfold on_epoch_begin, hasattr, getattr. fold attrs.
  rewrite Hsrc, Htgt. rewrite bool_decide_eq_true_2 by eauto.
  cbn. unfold mbind, M_bind, get_value, mret, M_ret, set_value, print, emit.
  cbn. rewrite lr_schedule_call_lift.
  destruct (_lr_schedule epoch (Float.widen (heap w source)) (schedule self)); [|done].
  cbn. by rewrite <- !app_assoc.
Qed.

Lemma on_epoch_begin_without_learning_rate (epoch : Z) (w : world) (target : loc) :
  attrs !! "lr" = Some target →
  attrs !! "learning_rate" = None →
  on_epoch_begin self epoch w = (Raise (AttributeError "learning_rate"), w).
Proof.
  intros Htgt Hno. unfold on_epoch_begin, hasattr, getattr. fold attrs.
  rewrite Hno, Htgt. by rewrite bool_decide_eq_true_2 by eauto.
Qed.

End Callback.

Lemma stdout_app (w : world) (h : loc → Float.float32) (evs : list event) :
  stdout {| heap := h; trace := trace w ++ evs |}
  = stdout w ++ omap (λ ev, match ev with Print line => Some line | _ => None end) evs.
Proof. unfold stdout. cbn. apply omap_app. Qed.

(** C4: the six end-to-end scenarios on the schedule of the training script,
    [[(1, 0.001), (30, 0.0001), (50, 0.00001)]]. *)
Theorem training_schedule_scenarios :
  _lr_schedule 0 (Float.literal 5 4) training_schedule = Return (Float.literal 5 4)
  ∧ _lr_schedule 1 (Float.literal 5 4) training_schedule = Return (Float.literal 1 3)
  ∧ _lr_schedule 15 (Float.literal 1 3) training_schedule = Return (Float.literal 1 3)
  ∧ _lr_schedule 30 (Float.literal 1 3) training_schedule = Return (Float.literal 1 4)
  ∧ _lr_schedule 49 (Float.literal 1 4) training_schedule = Return (Float.literal 1 4)
  ∧ _lr_schedule 51 (Float.literal 1 5) training_schedule = Return (Float.literal 1 5).
Proof. repeat split; vm_compute; reflexivity. Qed.

(** C5: an optimizer without the attribute [lr] makes [on_epoch_begin] raise
    [ValueError] at once: the world is left as it was, so no variable was
    read or written and nothing was printed, and this whatever the schedule
    and the other attributes are, so before the schedule is consulted. With
    the attribute present no [ValueError] is raised. *)
Theorem on_epoch_begin_requires_lr (self : EpochBasedLearningRateSchedule)
    (epoch : Z) (w : world) :
  (attributes (optimizer (model self)) !! "lr" = None →
   on_epoch_begin self epoch w = (Raise (ValueError lr_missing_message), w))
  ∧ (is_Some (attributes (optimizer (model self)) !! "lr") →
     ∀ msg, (on_epoch_begin self epoch w).1 ≠ Raise (ValueError msg)).
Proof.
  split; [apply on_epoch_begin_without_lr|].
  intros [target Htgt] msg.
  destruct (attributes (optimizer (model self)) !! "learning_rate") as [source|] eqn:Hsrc.
  - rewrite (on_epoch_begin_run self epoch w source target Hsrc Htgt).
    destruct (_lr_schedule epoch (Float.widen (heap w source)) (schedule self))
      as [r|ex] eqn:Hres; [done|].
    apply lr_schedule_raises_index_only in Hres as ->. done.
  - by rewrite (on_epoch_begin_without_learning_rate self epoch w target Htgt Hsrc).
Qed.

(** C7: the helper is a function of the schedule, the epoch and the current
    rate alone. Run the way the callback runs it, among the backend
    variables and the output of the process, it consults and changes none of
    them: in any two worlds the same three arguments give the same result,
    the one [_lr_schedule] gives on them; the world is left exactly as it
    was; and a second invocation after the first gives that result again. *)
Theorem lr_schedule_call_pure (epoch : Z) (lr : float) (sched : list (Z * float))
    (w1 w2 : world) :
  (_lr_schedule_call epoch lr sched w1).1 = (_lr_schedule_call epoch lr sched w2).1
  ∧ (_lr_schedule_call epoch lr sched w1).1 = _lr_schedule epoch lr sched
  ∧ (_lr_schedule_call epoch lr sched w1).2 = w1
  ∧ (_lr_schedule_call epoch lr sched (_lr_schedule_call epoch lr sched w1).2).1
    = (_lr_schedule_call epoch lr sched w1).1.
Proof. by rewrite !lr_schedule_call_lift. Qed.

(** C8, as amended: on a non-empty schedule the callback stores the resolved
    rate in the variable of the attribute [lr], which keeps it rounded to
    [float32] (and so exactly when the rate is a [float32] number, as the
    rate read is), leaves every other variable alone and calls [print]
    exactly once. For an epoch from [0] on and a finite rate the text
    printed is a newline and the line
    [Epoch <epoch>: Learning rate is <rate>.], where the epoch is written in
    decimal, with zeros in front up to five digits and with all its digits
    from 100000 on, and the resolved rate (not the rounded one stored) is
    written to six decimal places, rounded half to even; no other line has
    this form. *)
Theorem on_epoch_begin_writes_and_logs (self : EpochBasedLearningRateSchedule)
    (epoch : Z) (w : world) (source target : loc) :
  attributes (optimizer (model self)) !! "learning_rate" = Some source →
  attributes (optimizer (model self)) !! "lr" = Some target →
  schedule self ≠ [] →
  0 ≤ epoch →
  ∃ (r : float) (w' : world) (line : list ascii),
    _lr_schedule epoch (Float.widen (heap w source)) (schedule self) = Return r
    ∧ on_epoch_begin self epoch w = (Return (), w')
    ∧ proj1_sig (heap w' target) = Float.round32 r
    ∧ (∀ x : Float.float32, r = Float.widen x → heap w' target = x)
    ∧ (∀ l, l ≠ target → heap w' l = heap w l)
    ∧ stdout w' = stdout w ++ [newline ++ line]
    ∧ (Float.is_finite r = true →
       log_line at_least_five_digits epoch r line
       ∧ ∀ line', log_line at_least_five_digits epoch r line' → line' = line).
Proof.
  intros Hsrc Htgt Hne Hepoch.
  destruct (lr_schedule_nonempty epoch (Float.widen (heap w source)) (schedule self) Hne)
    as (first & lst & _ & _ & Hr).
  rewrite (on_epoch_begin_run self epoch w source target Hsrc Htgt), Hr.
  set (r := if epoch <? first.1 then _ else _).
  eexists r, _, _. split; [done|]. split; [done|]. cbn [heap].
  split; [by rewrite decide_True, to_f32_rounds by done|].
  split; [by intros x ->; rewrite decide_True, to_f32_widen by done|].
  split; [by intros l Hl; rewrite decide_False|].
  split; [by rewrite stdout_app|].
  intros Hfin.
  assert (log_line at_least_five_digits epoch r
            (text "Epoch " ++ Fmt.format_d_zero 5 epoch
             ++ text ": Learning rate is " ++ Fmt.format_f 6 6 r ++ text "."))
    as Hline.
  { eexists _, _. split; [done|].
    split; [by apply format_d_zero_at_least_five | by apply format_f_six_places]. }
  split; [exact Hline|].
  intros line' Hline'. by apply (log_line_unique epoch r).
Qed.

(** C8, as stated, fails on the callback of the training script. At epoch
    100000 the epoch field printed has six digits, so the line is not of the
    five-digit form. And at epoch 1 the rate resolved is [0.001], while the
    variable, a [float32], then holds [0.0010000000474974513]. *)
Lemma log_line_not_five_digits_at_100000 :
  (∃ line : list ascii,
     stdout (on_epoch_begin training_callback 100000 initial_world).2 = [newline ++ line]
     ∧ string_of_list_ascii line = "Epoch 100000: Learning rate is 0.000100."%string
     ∧ _lr_schedule 100000 (Float.widen (heap initial_world 0%nat)) training_schedule
       = Return (Float.widen (heap initial_world 0%nat))
     ∧ ¬ log_line five_digits 100000 (Float.widen (heap initial_world 0%nat)) line)
  ∧ _lr_schedule 1 (Float.widen (heap initial_world 0%nat)) training_schedule
    = Return (Float.literal 1 3)
  ∧ Float.widen (heap (on_epoch_begin training_callback 1 initial_world).2 0%nat)
    = S754_finite false 0x10624de0000000 (-62)
  ∧ Float.literal 1 3 = S754_finite false 0x10624dd2f1a9fc (-62).
Proof.
  split; [|by vm_compute].
  eexists. split; [vm_compute; reflexivity|]. split; [reflexivity|].
  split; [by vm_compute|].
  intros (E & R & Hline & [Hlen _] & _).
  apply (f_equal (λ l : list ascii, l !! 11%nat)) in Hline.
  do 5 (destruct E as [|? E]; [discriminate Hlen|]).
  destruct E; [|discriminate Hlen].
  cbn in Hline. discriminate Hline.
Qed.

(** * The theorems on the training run *)

Lemma training_schedule_sorted : Sorted Z.le training_schedule.*1.
Proof. vm_compute. repeat constructor; discriminate. Defined.

Lemma training_schedule_unique : NoDup training_schedule.*1.
Proof. apply (bool_decide_unpack _). vm_compute. exact I. Defined.

Lemma resolve_breakpoint_exact_witness :
  _lr_schedule 30 (Float.literal 1 3) training_schedule = Return (Float.literal 1 4).
Proof.
  apply resolve_breakpoint_exact.
  - discriminate.
  - exact training_schedule_sorted.
  - exact training_schedule_unique.
  - right. left.
Defined.

Lemma resolve_between_breakpoints_witness :
  _lr_schedule 15 (Float.literal 1 3) training_schedule = Return (Float.literal 1 3).
Proof.
  apply (resolve_between_breakpoints training_schedule 0
           1 (Float.literal 1 3) 30 (Float.literal 1 4)).
  - exact training_schedule_sorted.
  - reflexivity.
  - reflexivity.
  - lia.
Defined.

Lemma resolve_outside_range_witness :
  _lr_schedule 51 (Float.literal 1 5) training_schedule = Return (Float.literal 1 5).
Proof.
  apply (resolve_outside_range training_schedule
           (1, Float.literal 1 3) (50, Float.literal 1 5)).
  - reflexivity.
  - reflexivity.
  - right. cbn. lia.
Defined.

Lemma on_epoch_begin_requires_lr_witness :
  on_epoch_begin callback_without_lr 1 initial_world
  = (Raise (ValueError lr_missing_message), initial_world)
  ∧ ∀ msg, (on_epoch_begin training_callback 1 initial_world).1 ≠ Raise (ValueError msg).
Proof.
  split.
  - apply (on_epoch_begin_requires_lr callback_without_lr 1 initial_world).
    reflexivity.
  - apply (on_epoch_begin_requires_lr training_callback 1 initial_world).
    exists 0%nat. reflexivity.
Defined.

Lemma resolve_total_witness :
  ∃ r, _lr_schedule 15 (Float.literal 1 3) training_schedule = Return r.
Proof. apply resolve_total. discriminate. Defined.

Lemma on_epoch_begin_writes_and_logs_witness :
  ∃ (r : float) (w' : world) (line : list ascii),
    _lr_schedule 1 (Float.widen (heap initial_world 0%nat)) (schedule training_callback)
    = Return r
    ∧ on_epoch_begin training_callback 1 initial_world = (Return (), w')
    ∧ proj1_sig (heap w' 0%nat) = Float.round32 r
    ∧ (∀ x : Float.float32, r = Float.widen x → heap w' 0%nat = x)
    ∧ (∀ l, l ≠ 0%nat → heap w' l = heap initial_world l)
    ∧ stdout w' = stdout initial_world ++ [newline ++ line]
    ∧ (Float.is_finite r = true →
       log_line at_least_five_digits 1 r line
       ∧ ∀ line', log_line at_least_five_digits 1 r line' → line' = line).
Proof.
  apply (on_epoch_begin_writes_and_logs training_callback 1 initial_world 0%nat 0%nat).
  - reflexivity.
  - reflexivity.
  - discriminate.
  - lia.
Defined.

Lemma resolve_first_of_duplicates_witness :
  _lr_schedule 30 (Float.literal 1 3) duplicate_schedule = Return (Float.literal 1 4).
Proof.
  apply (resolve_first_of_duplicates duplicate_schedule
           (1, Float.literal 1 3) (50, Float.literal 1 5) 1).
  - reflexivity.
  - reflexivity.
  - cbn. lia.
  - reflexivity.
  - intros j p Hj Hp. destruct j as [|j]; [|lia].
    injection Hp as <-. cbn. lia.
Defined.

Lemma resolve_rate_from_inputs_witness :
  ∃ r, _lr_schedule 15 (Float.literal 1 3) training_schedule = Return r
       ∧ (r = Float.literal 1 3 ∨ r ∈ training_schedule.*2).
Proof. apply resolve_rate_from_inputs. discriminate. Defined.

(** * Further properties of the helper *)

Section ResolveFurther.

Context {Rate : Type}.
Implicit Types (schedule : list (Z * Rate)) (current_rate r : Rate) (e : Z).

Lemma first_match_lookup e current_rate (l : list (Z * Rate)) :
  first_match e current_rate l = default current_rate (schedule_map l !! e).
Proof.
  unfold schedule_map. induction l as [|p l IH]; [done|].
  destruct p as [k x]. cbn [first_match fst snd]. rewrite list_to_map_cons.
  destruct (Z.eqb_spec e k) as [->|Hne].
  - by rewrite lookup_insert_eq.
  - by rewrite lookup_insert_ne.
Qed.

Lemma first_match_listed e current_rate (l : list (Z * Rate)) :
  first_match e current_rate l = current_rate
  ∨ (e, first_match e current_rate l) ∈ l.
Proof.
  induction l as [|p l IH]; [by left|]. cbn.
  destruct (Z.eqb_spec e p.1) as [->|_].
  - right. destruct p. left.
  - destruct IH as [IH|IH]; [by left|right; by right].
Qed.

Lemma first_match_constant e (l : list (Z * Rate)) :
  e ∈ l.*1 → ∃ r, ∀ current_rate, first_match e current_rate l = r.
Proof.
  induction l as [|p l IH]; [by intros ?%elem_of_nil|].
  intros Hin. cbn. destruct (Z.eqb_spec e p.1) as [->|Hne]; [by eexists|].
  apply IH. cbn in Hin. apply elem_of_cons in Hin as [?|?]; done.
Qed.

Lemma sorted_outside_no_match schedule first lst e :
  Sorted Z.le schedule.*1 →
  head schedule = Some first → last schedule = Some lst →
  e < first.1 ∨ e > lst.1 → e ∉ schedule.*1.
Proof.
  intros Hs Hf Hl Hout Hin.
  apply list_elem_of_lookup in Hin as [i Hi]. rewrite list_lookup_fmap in Hi.
  destruct (schedule !! i) as [p|] eqn:Hp; [|done]. injection Hi as <-.
  pose proof (schedule_within_ends schedule first lst i p Hs Hf Hl Hp). lia.
Qed.

(** X1: on a non-empty schedule sorted by epoch the helper is a dictionary lookup:
    the rate listed for the epoch, or the current rate when the epoch is not
    listed. *)
Theorem lr_schedule_sorted_is_lookup schedule e current_rate :
  schedule ≠ [] →
  Sorted Z.le schedule.*1 →
  _lr_schedule e current_rate schedule
  = Return (default current_rate (schedule_map schedule !! e)).
Proof.
  intros Hne Hs.
  destruct (lr_schedule_nonempty e current_rate schedule Hne)
    as (first & lst & Hf & Hl & ->).
  f_equal. rewrite <- first_match_lookup.
  destruct (Z.ltb_spec e first.1) as [Hlo|Hlo].
  - symmetry. apply first_match_no_match.
    apply (sorted_outside_no_match schedule first lst); auto.
  - destruct (Z.gtb_spec e lst.1) as [Hhi|Hhi]; [|done].
    symmetry. apply first_match_no_match.
    apply (sorted_outside_no_match schedule first lst); [done|done|done|lia].
Qed.

(** X2: whatever the order of the schedule, a rate other than the current one
    comes from a breakpoint listed with the very epoch asked for. *)
Theorem lr_schedule_changes_only_on_listed_epoch schedule e current_rate r :
  _lr_schedule e current_rate schedule = Return r →
  r = current_rate ∨ (e, r) ∈ schedule.
Proof.
  intros Hr.
  destruct schedule as [|p l] eqn:Hs; [by vm_compute in Hr|]. rewrite <- Hs in *.
  assert (schedule ≠ []) as Hne by (by rewrite Hs). clear Hs.
  destruct (lr_schedule_nonempty e current_rate schedule Hne)
    as (first & lst & _ & _ & Heq).
  rewrite Heq in Hr. injection Hr as <-.
  destruct (e <? first.1); [by left|]. destruct (e >? lst.1); [by left|].
  apply first_match_listed.
Qed.

(** X3: for a given schedule and epoch the helper either hands every current
    rate back or returns one and the same rate for all of them: the current
    rate has no part in choosing the breakpoint. *)
Theorem lr_schedule_identity_or_constant schedule e :
  schedule ≠ [] →
  (∀ current_rate, _lr_schedule e current_rate schedule = Return current_rate)
  ∨ (∃ r, ∀ current_rate, _lr_schedule e current_rate schedule = Return r).
Proof.
  intros Hne.
  destruct (nonempty_ends schedule Hne) as (first & lst & Hf & Hl).
  destruct (decide (e ∈ schedule.*1)) as [Hin|Hnot].
  - destruct (first_match_constant e schedule Hin) as [r Hr].
    destruct (e <? first.1) eqn:Hlo; [|destruct (e >? lst.1) eqn:Hhi].
    + left. intros c. by rewrite (lr_schedule_unfold e c schedule first lst Hf Hl), Hlo.
    + left. intros c.
      by rewrite (lr_schedule_unfold e c schedule first lst Hf Hl), Hlo, Hhi.
    + right. exists r. intros c.
      by rewrite (lr_schedule_unfold e c schedule first lst Hf Hl), Hlo, Hhi, Hr.
  - left. intros c. rewrite (lr_schedule_unfold e c schedule first lst Hf Hl).
    destruct (e <? first.1); [done|]. destruct (e >? lst.1); [done|].
    by rewrite first_match_no_match.
Qed.

(** X5: a schedule whose first epoch is greater than its last one never takes
    effect: at every epoch one of the two range tests returns the current
    rate. *)
Theorem lr_schedule_descending_is_dead schedule first lst e current_rate :
  head schedule = Some first →
  last schedule = Some lst →
  lst.1 < first.1 →
  _lr_schedule e current_rate schedule = Return current_rate.
Proof.
  intros Hf Hl Hdesc.
  rewrite (lr_schedule_unfold e current_rate schedule first lst Hf Hl).
  destruct (Z.ltb_spec e first.1); [done|].
  destruct (Z.gtb_spec e lst.1); [done|lia].
Qed.

End ResolveFurther.

Section ResolveUnlisted.

Context {Rate : Type}.

Lemma lr_schedule_rate_origin (schedule : list (Z * Rate)) (e : Z)
    (current_rate : Rate) :
  schedule ≠ [] →
  ∃ r, _lr_schedule e current_rate schedule = Return r
       ∧ (r = current_rate ∨ r ∈ schedule.*2).
Proof.
  intros Hne.
  destruct (lr_schedule_nonempty e current_rate schedule Hne)
    as (first & lst & _ & _ & ->).
  eexists; split; [done|].
  destruct (e <? first.1); [by left|]. destruct (e >? lst.1); [by left|].
  apply first_match_range.
Qed.

Lemma lr_schedule_unlisted_epoch_aux (schedule : list (Z * Rate)) (e : Z)
    (current_rate : Rate) :
  schedule ≠ [] →
  e ∉ schedule.*1 →
  _lr_schedule e current_rate schedule = Return current_rate.
Proof.
  intros Hne Hnot.
  destruct (lr_schedule_nonempty e current_rate schedule Hne)
    as (first & lst & _ & _ & ->).
  destruct (e <? first.1); [done|]. destruct (e >? lst.1); [done|].
  by rewrite first_match_no_match.
Qed.

(** X6: in every non-empty schedule, sorted or not, an epoch that no breakpoint
    lists leaves the rate as it is. *)
Theorem lr_schedule_unlisted_epoch (schedule : list (Z * Rate)) (e : Z)
    (current_rate : Rate) :
  schedule ≠ [] →
  e ∉ schedule.*1 →
  _lr_schedule e current_rate schedule = Return current_rate.
Proof.
  intros Hne Hnot.
  destruct (lr_schedule_nonempty e current_rate schedule Hne)
    as (first & lst & _ & _ & ->).
  destruct (e <? first.1); [done|]. destruct (e >? lst.1); [done|].
  by rewrite first_match_no_match.
Qed.

End ResolveUnlisted.

(** * Further properties of the callback *)

Section CallbackFurther.

Context (self : EpochBasedLearningRateSchedule).

Let attrs : gmap string loc := attributes (optimizer (model self)).

(** X7: the exceptions of [on_epoch_begin], and when each is raised: [ValueError]
    without the attribute [lr]; [AttributeError] with [lr] but without
    [learning_rate], which the test of line 39 lets through; [IndexError]
    with both attributes and an empty schedule. In no other case does the
    callback raise. *)
Theorem on_epoch_begin_raises_iff (epoch : Z) (w : world) (ex : exception) :
  (on_epoch_begin self epoch w).1 = Raise ex
  ↔ (attrs !! "lr" = None ∧ ex = ValueError lr_missing_message)
    ∨ (is_Some (attrs !! "lr") ∧ attrs !! "learning_rate" = None
       ∧ ex = AttributeError "learning_rate")
    ∨ (is_Some (attrs !! "lr") ∧ is_Some (attrs !! "learning_rate")
       ∧ schedule self = [] ∧ ex = IndexError).
Proof.
  destruct (attrs !! "lr") as [target|] eqn:Htgt.
  - destruct (attrs !! "learning_rate") as [source|] eqn:Hsrc.
    + rewrite (on_epoch_begin_run self epoch w source target Hsrc Htgt).
      destruct (schedule self) as [|p l] eqn:Hs.
      * change (_lr_schedule epoch (Float.widen (heap w source)) [])
          with (@Raise float IndexError).
        cbn. split; [intros [= <-]; eauto 10|].
        intros [[? _]|[(_ & ? & _)|(_ & _ & _ & ->)]]; done.
      * destruct (lr_schedule_nonempty epoch (Float.widen (heap w source)) (p :: l)
                    ltac:(done))
          as (? & ? & _ & _ & ->).
        cbn. split; [done|].
        intros [[? _]|[(_ & ? & _)|(_ & _ & ? & _)]]; done.
    + rewrite (on_epoch_begin_without_learning_rate self epoch w target Htgt Hsrc).
      cbn. split; [intros [= <-]; eauto 10|].
      intros [[? _]|[(_ & _ & ->)|(_ & [? ?] & _)]]; done.
  - rewrite (on_epoch_begin_without_lr self epoch w Htgt).
    cbn. split; [intros [= <-]; eauto|].
    intros [[_ ->]|[([? ?] & _)|([? ?] & _)]]; done.
Qed.

(** X8: an exception leaves no partial update behind: when [on_epoch_begin]
    raises, every variable holds what it held and nothing has been
    printed. *)
Theorem on_epoch_begin_exception_safe (epoch : Z) (w : world) (ex : exception) :
  (on_epoch_begin self epoch w).1 = Raise ex →
  heap (on_epoch_begin self epoch w).2 = heap w
  ∧ stdout (on_epoch_begin self epoch w).2 = stdout w.
Proof.
  destruct (attrs !! "lr") as [target|] eqn:Htgt.
  - destruct (attrs !! "learning_rate") as [source|] eqn:Hsrc.
    + rewrite (on_epoch_begin_run self epoch w source target Hsrc Htgt).
      destruct (_lr_schedule epoch (Float.widen (heap w source)) (schedule self));
        [done|].
      intros _. cbn [snd heap]. split; [done|].
      rewrite stdout_app. cbn. by rewrite app_nil_r.
    + by rewrite (on_epoch_begin_without_learning_rate self epoch w target Htgt Hsrc).
  - by rewrite (on_epoch_begin_without_lr self epoch w Htgt).
Qed.

(** X9: on every path, exceptions included, [on_epoch_begin] leaves alone every
    variable but the one the attribute [lr] names. *)
Theorem on_epoch_begin_frame (epoch : Z) (w : world) (l : loc) :
  attrs !! "lr" ≠ Some l →
  heap (on_epoch_begin self epoch w).2 l = heap w l.
Proof.
  intros Hl.
  destruct (attrs !! "lr") as [target|] eqn:Htgt.
  - destruct (attrs !! "learning_rate") as [source|] eqn:Hsrc.
    + rewrite (on_epoch_begin_run self epoch w source target Hsrc Htgt).
      destruct (_lr_schedule epoch (Float.widen (heap w source)) (schedule self));
        [|done].
      cbn [snd heap]. rewrite decide_False; [done|congruence].
    + by rewrite (on_epoch_begin_without_learning_rate self epoch w target Htgt Hsrc).
  - by rewrite (on_epoch_begin_without_lr self epoch w Htgt).
Qed.

(** X10: with an empty schedule and both attributes the callback reads the rate,
    then raises [IndexError]: one [get_value], no [set_value], no [print]. *)
Theorem on_epoch_begin_empty_schedule (epoch : Z) (w : world) (source target : loc) :
  attrs !! "learning_rate" = Some source →
  attrs !! "lr" = Some target →
  schedule self = [] →
  on_epoch_begin self epoch w
  = (Raise IndexError,
     {| heap := heap w; trace := trace w ++ [GetValue source (heap w source)] |}).
Proof.
  intros Hsrc Htgt Hs.
  by rewrite (on_epoch_begin_run self epoch w source target Hsrc Htgt), Hs.
Qed.

End CallbackFurther.

(** * The callback over the epochs of a run *)

Lemma run_epochs_app (self : EpochBasedLearningRateSchedule) (es1 es2 : list Z)
    (w : world) :
  run_epochs self (es1 ++ es2) w
  = match run_epochs self es1 w with
    | (Return _, w1) => run_epochs self es2 w1
    | (Raise ex, w1) => (Raise ex, w1)
    end.
Proof.
  revert w. induction es1 as [|e es1 IH]; intros w; [done|].
  cbn [app run_epochs]. unfold mbind, M_bind.
  destruct (on_epoch_begin self e w) as [[[]|ex] w1]; [apply IH|done].
Qed.

Section EpochRun.

Context (self : EpochBasedLearningRateSchedule) (source target : loc).
Hypothesis Hsrc : attributes (optimizer (model self)) !! "learning_rate" = Some source.
Hypothesis Htgt : attributes (optimizer (model self)) !! "lr" = Some target.
Hypothesis Hne : schedule self ≠ [].

Lemma on_epoch_begin_step (epoch : Z) (w : world) :
  ∃ r, _lr_schedule epoch (Float.widen (heap w source)) (schedule self) = Return r
    ∧ on_epoch_begin self epoch w
      = (Return (),
         {| heap := λ l, if decide (l = target) then Float.to_f32 r else heap w l;
            trace := trace w ++ [GetValue source (heap w source);
                                 SetValue target r;
                                 Print (epoch_message epoch r)] |}).
Proof.
  destruct (lr_schedule_nonempty epoch (Float.widen (heap w source)) (schedule self) Hne)
    as (first & lst & _ & _ & Hr).
  eexists. split; [exact Hr|].
  by rewrite (on_epoch_begin_run self epoch w source target Hsrc Htgt), Hr.
Qed.

Lemma run_epochs_returns (epochs : list Z) (w : world) :
  ∃ w', run_epochs self epochs w = (Return (), w').
Proof.
  revert w. induction epochs as [|e epochs IH]; intros w; [by eexists|].
  destruct (on_epoch_begin_step e w) as (r & _ & Hstep).
  cbn [run_epochs]. unfold mbind, M_bind. rewrite Hstep. apply IH.
Qed.

(** X11: with both attributes and a non-empty schedule a run over any epochs, in
    any order, never raises; it prints one line for each epoch, in the order
    of the epochs, and each line reports the rate read from the variable at
    the start, a rate of the schedule, or a rate of the schedule as the
    [float32] variable returned it. Other variables are left alone. *)
Theorem run_epochs_logs_each_epoch (epochs : list Z) (w : world) :
  ∃ rates : list float,
    (run_epochs self epochs w).1 = Return ()
    ∧ length rates = length epochs
    ∧ stdout (run_epochs self epochs w).2
      = stdout w ++ zip_with epoch_message epochs rates
    ∧ Forall (λ r, r = Float.widen (heap w source)
                   ∨ r ∈ (schedule self).*2
                   ∨ ∃ listed, listed ∈ (schedule self).*2
                               ∧ r = Float.widen (Float.to_f32 listed)) rates
    ∧ (∀ l, l ≠ target → heap (run_epochs self epochs w).2 l = heap w l).
Proof.
  revert w. induction epochs as [|e epochs IH]; intros w.
  { exists []. cbn. by rewrite app_nil_r. }
  destruct (on_epoch_begin_step e w) as (r & Hr & Hstep).
  cbn [run_epochs]. unfold mbind, M_bind. rewrite Hstep.
  set (w1 := {| heap := _; trace := _ |}).
  destruct (IH w1) as (rates & Hok & Hlen & Hout & Hall & Hframe).
  assert (r = Float.widen (heap w source) ∨ r ∈ (schedule self).*2) as Hrin.
  { destruct (lr_schedule_rate_origin (schedule self) e (Float.widen (heap w source)) Hne)
      as (r' & Hr' & Hin). rewrite Hr in Hr'. by injection Hr' as <-. }
  exists (r :: rates). split; [done|]. split; [by cbn; rewrite Hlen|].
  split; [|split].
  - rewrite Hout. unfold w1. rewrite stdout_app. cbn. by rewrite <- app_assoc.
  - constructor; [tauto|]. eapply Forall_impl; [exact Hall|].
    intros r' [->|?]; [|tauto]. unfold w1. cbn.
    destruct (decide (source = target)); [|by left].
    destruct Hrin as [->|Hin].
    + left. by rewrite to_f32_widen.
    + right; right. eauto.
  - intros l Hl. rewrite Hframe by done. unfold w1. cbn. by rewrite decide_False.
Qed.

End EpochRun.

(** ** When [lr] and [learning_rate] name one variable *)

Lemma lr_schedule_listed {Rate : Type} (schedule : list (Z * Rate)) (e : Z)
    (r current_rate : Rate) :
  Sorted Z.le schedule.*1 → NoDup schedule.*1 → (e, r) ∈ schedule →
  _lr_schedule e current_rate schedule = Return r.
Proof.
  intros Hs Hnd Hin.
  assert (schedule ≠ []) as Hne by (intros ->; by apply elem_of_nil in Hin).
  destruct (lr_schedule_nonempty e current_rate schedule Hne)
    as (first & lst & Hf & Hl & ->).
  pose proof Hin as Hin'. apply list_elem_of_lookup in Hin' as [i Hi].
  pose proof (schedule_within_ends schedule first lst i (e, r) Hs Hf Hl Hi) as [Hlo Hhi].
  cbn in Hlo, Hhi.
  destruct (Z.ltb_spec e first.1); [lia|]. destruct (Z.gtb_spec e lst.1); [lia|].
  rewrite first_match_lookup. unfold schedule_map.
  by rewrite (elem_of_list_to_map_1 schedule e r Hnd Hin).
Qed.

Section HeldRate.

Context (self : EpochBasedLearningRateSchedule) (var : loc).
Hypothesis Hsrc : attributes (optimizer (model self)) !! "learning_rate" = Some var.
Hypothesis Htgt : attributes (optimizer (model self)) !! "lr" = Some var.
Hypothesis Hne : schedule self ≠ [].

Lemma run_epochs_unlisted_aux (epochs : list Z) (w : world) :
  Forall (λ e, e ∉ (schedule self).*1) epochs →
  ∃ w', run_epochs self epochs w = (Return (), w') ∧ ∀ l, heap w' l = heap w l.
Proof.
  revert w. induction epochs as [|e epochs IH]; intros w Hall; [by eexists|].
  apply Forall_cons in Hall as [He Hall].
  destruct (on_epoch_begin_step self var var Hsrc Htgt Hne e w) as (r & Hr & Hstep).
  rewrite (lr_schedule_unlisted_epoch_aux (schedule self) e _ Hne He) in Hr.
  injection Hr as <-.
  cbn [run_epochs]. unfold mbind, M_bind. rewrite Hstep.
  set (w1 := {| heap := _; trace := _ |}).
  destruct (IH w1 Hall) as (w' & Hrun & Hheap).
  exists w'. split; [done|]. intros l. rewrite Hheap. unfold w1. cbn.
  destruct (decide (l = var)) as [->|]; [apply to_f32_widen|done].
Qed.

(** X12: over epochs none of which the schedule lists the rate is never changed:
    a run that starts (or is resumed) after a breakpoint does not get that
    breakpoint's rate, it keeps the rate the optimizer came with until the
    next listed epoch. *)
Theorem run_epochs_unlisted_keeps_rate (epochs : list Z) (w : world) :
  Forall (λ e, e ∉ (schedule self).*1) epochs →
  (run_epochs self epochs w).1 = Return ()
  ∧ ∀ l, heap (run_epochs self epochs w).2 l = heap w l.
Proof.
  intros Hall. destruct (run_epochs_unlisted_aux epochs w Hall) as (w' & -> & Hheap).
  done.
Qed.

(** X13: over consecutive epochs the rate of a breakpoint is held: after the
    callback has run for the epochs [first_epoch .. e] of a sorted schedule
    with unique epochs, the variable holds the rate of the breakpoint of
    epoch [b], rounded to the variable's [float32], when [b] is in that
    window and no breakpoint is listed for an epoch after [b] and up to
    [e]. *)
Theorem run_epochs_holds_breakpoint_rate (first_epoch b e : Z) (r : float) (w : world) :
  Sorted Z.le (schedule self).*1 →
  NoDup (schedule self).*1 →
  (b, r) ∈ schedule self →
  first_epoch ≤ b ≤ e →
  (∀ k, b < k ≤ e → k ∉ (schedule self).*1) →
  (run_epochs self (epoch_range first_epoch (e + 1)) w).1 = Return ()
  ∧ heap (run_epochs self (epoch_range first_epoch (e + 1)) w).2 var = Float.to_f32 r.
Proof.
  intros Hs Hnd Hin Hwin Hafter.
  enough (∃ w', run_epochs self (epoch_range first_epoch (e + 1)) w = (Return (), w')
                ∧ heap w' var = Float.to_f32 r) as (w' & -> & Hr) by done.
  unfold epoch_range.
  replace (e + 1 - first_epoch) with ((b - first_epoch) + (1 + (e - b))) by lia.
  rewrite seqZ_app by lia. rewrite (seqZ_cons (first_epoch + (b - first_epoch))) by lia.
  replace (first_epoch + (b - first_epoch)) with b by lia.
  replace (Z.pred (1 + (e - b))) with (e - b) by lia.
  rewrite run_epochs_app.
  destruct (run_epochs_returns self var var Hsrc Htgt Hne (seqZ first_epoch (b - first_epoch)) w)
    as [w1 ->].
  cbn [run_epochs]. unfold mbind, M_bind.
  destruct (on_epoch_begin_step self var var Hsrc Htgt Hne b w1) as (r' & Hr & ->).
  rewrite (lr_schedule_listed (schedule self) b r _ Hs Hnd Hin) in Hr.
  injection Hr as <-.
  set (w2 := {| heap := _; trace := _ |}).
  destruct (run_epochs_unlisted_aux (seqZ (Z.succ b) (e - b)) w2) as (w' & -> & Hheap).
  { apply Forall_seqZ. intros k Hk. apply Hafter. lia. }
  exists w'. split; [done|]. rewrite Hheap. unfold w2. cbn. by rewrite decide_True.
Qed.

End HeldRate.

(** * Further properties of the log line *)

Lemma round_half_even_small (num den : N) :
  (2 * num ≤ den)%N → (0 < den)%N → Fmt.round_half_even num den = 0%N.
Proof.
  intros Hsmall Hden. unfold Fmt.round_half_even.
  rewrite N.div_small, N.mod_small by lia.
  destruct (N.ltb_spec den (2 * num)) as [?|_]; [lia|].
  cbn. by rewrite andb_false_r.
Qed.

(** X14: a finite rate of half a millionth or less is logged as zero; [%6.6f]
    keeps six decimals and rounds a tie to the even digit. *)
Theorem format_f_tiny_rate_prints_zero (rate : float) (v : Q) :
  Float.value rate = Some v →
  (Qabs v <= 1 # 2000000)%Q →
  Fmt.format_f 6 6 rate = Fmt.sign_text (Float.sign rate) ++ text "0.000000".
Proof.
  intros Hv Hsmall.
  destruct rate as [s|s| |s m e]; try done.
  { by destruct s. }
  cbn in Hv. injection Hv as <-.
  assert (Fmt.scaled 6 m e = 0%N) as Hzero.
  { destruct e as [|k|k].
    - exfalso. unfold Qle, Qabs, inject_Z in Hsmall. cbn [Qnum Qden] in Hsmall.
      destruct s; lia.
    - exfalso. unfold Qle, Qabs, inject_Z in Hsmall. cbn [Qnum Qden] in Hsmall.
      pose proof (Z.pow_pos_nonneg 2 (Z.pos k) ltac:(lia) ltac:(lia)).
      destruct s; nia.
    - unfold Fmt.scaled. apply round_half_even_small; [|done].
      unfold Qle, Qabs in Hsmall. cbn [Qnum Qden] in Hsmall.
      change (2 ^ N.pos k)%N with (N.pos (2 ^ k)).
      destruct s; cbn [Z.abs] in Hsmall; lia. }
  unfold Fmt.format_f. rewrite Hzero. by destruct s.
Qed.

Lemma fixed_digits_are_digits (k : nat) (n : N) : Forall is_digit (Fmt.fixed_digits k n).
Proof.
  revert n. induction k as [|k IH]; intros n; cbn; [constructor|].
  apply Forall_app. split; [apply IH|]. repeat constructor.
  unfold is_digit. rewrite digit_value_digit; [done|]. apply N.mod_lt. lia.
Qed.

Lemma format_d_zero_digits (epoch : Z) :
  0 ≤ epoch → Forall is_digit (Fmt.format_d_zero 5 epoch).
Proof.
  intros Hpos. unfold Fmt.format_d_zero.
  destruct (Z.ltb_spec epoch 0) as [?|_]; [lia|].
  unfold Fmt.pad. apply Forall_app. split.
  - apply Forall_replicate. by eexists.
  - apply fixed_digits_are_digits.
Qed.

Lemma digits_before_stop (stop : ascii) (d1 d2 rest1 rest2 : list ascii) :
  ¬ is_digit stop → Forall is_digit d1 → Forall is_digit d2 →
  d1 ++ stop :: rest1 = d2 ++ stop :: rest2 → d1 = d2.
Proof.
  intros Hstop H1. revert d2. induction H1 as [|c d1 Hc H1 IH]; intros d2 H2 Heq.
  - destruct H2 as [|c' d2 Hc' H2]; [done|].
    cbn in Heq. injection Heq as <- _. done.
  - destruct H2 as [|c' d2 Hc' H2].
    + cbn in Heq. injection Heq as -> _. done.
    + cbn in Heq. injection Heq as -> Heq. f_equal. by apply IH.
Qed.

(** X15: the log line tells the epochs apart: two invocations at different
    epochs, from [0] on, never print the same text, whatever the rates. *)
Theorem epoch_message_tells_epochs_apart (epoch1 epoch2 : Z) (rate1 rate2 : float) :
  0 ≤ epoch1 → 0 ≤ epoch2 →
  epoch_message epoch1 rate1 = epoch_message epoch2 rate2 →
  epoch1 = epoch2.
Proof.
  intros H1 H2 Heq. unfold epoch_message in Heq.
  do 2 apply app_inv_head in Heq.
  apply (digits_before_stop ":"%char) in Heq;
    [|by intros [? ?]|by apply format_d_zero_digits..].
  destruct (format_d_zero_at_least_five epoch1 H1) as (_ & _ & Hv1).
  destruct (format_d_zero_at_least_five epoch2 H2) as (_ & _ & Hv2).
  rewrite Heq, Hv2 in Hv1. injection Hv1. lia.
Qed.

(** * The script *)

Section ScriptProperties.

Import Script.

Ltac run_script args env :=
  destruct args as [ep ie bs ex ev], env as [dir_exists [path|] isseq];
  cbn [export_only eval_only epochs initial_epoch batch_size latest_checkpoint
       checkpoint_dir_exists] in *;
  subst; unfold run, main, when, truthy, bool_of_str;
  cbn [export_only eval_only epochs initial_epoch batch_size latest_checkpoint
       checkpoint_dir_exists];
  try (destruct (String.eqb path "") eqn:Hpath);
  repeat match goal with b : bool |- _ => destruct b end.

(** X16: with [export_only] set the script saves the model to the export directory
    and quits: it never trains and never evaluates. It saves also when no
    checkpoint was restored, the weights then being the initial ones. *)
Theorem script_export_only (args : arguments) (env : environment) :
  export_only args = true →
  (run args env).2 = false
  ∧ filter is_save (run args env).1 = [SaveModel export_dir]
  ∧ filter is_fit (run args env).1 = []
  ∧ filter is_evaluate (run args env).1 = [].
Proof.
  intros Hex. run_script args env; by vm_compute.
Qed.

(** X17: with [eval_only] set, and [export_only] not, the script evaluates the
    model once on the test dataset and quits: it neither trains nor saves. *)
Theorem script_eval_only (args : arguments) (env : environment) :
  export_only args = false →
  eval_only args = true →
  (run args env).2 = false
  ∧ filter is_evaluate (run args env).1
    = [Evaluate (batched env (batch_size args) (test_dataset args))]
  ∧ filter is_fit (run args env).1 = []
  ∧ filter is_save (run args env).1 = [].
Proof.
  intros Hex Hev. run_script args env; by vm_compute.
Qed.

(** X18: with neither flag, and a test dataset that is not a
    [keras.utils.Sequence], the script runs to its end: one [fit], on the
    first 320 elements of the test dataset for validation, with the epochs
    and the initial epoch of the command line and the schedule callback as
    the last of three callbacks, then one [evaluate] on the test dataset.
    When the test dataset is a [keras.utils.Sequence], [take] of line 132
    raises [AttributeError] and the script ends there: it has called neither
    [fit] nor [evaluate]. Either way the model is not saved by the script. *)
Theorem script_trains_then_evaluates (args : arguments) (env : environment) :
  export_only args = false →
  eval_only args = false →
  (run args env).2 = true
  ∧ filter is_save (run args env).1 = []
  ∧ if is_sequence env (test_dataset args)
    then raised args env = Some (AttributeError "take")
         ∧ filter (λ a, is_fit a || is_evaluate a) (run args env).1 = []
    else raised args env = None
         ∧ ∃ train checkpoint board,
             filter (λ a, is_fit a || is_evaluate a) (run args env).1
             = [Fit train
                  (batched env (batch_size args) (take 320 (test_dataset args)))
                  (epochs args) (initial_epoch args)
                  [checkpoint; board; LearningRateSchedule training_schedule];
                Evaluate (batched env (batch_size args) (test_dataset args))].
Proof.
  intros Hex Hev. unfold raised.
  run_script args env; unfold take_method; cbn [is_sequence];
    destruct (isseq (test_dataset _)) eqn:Hseq;
    (split; [by vm_compute|]); (split; [by vm_compute|]);
    (split; [by vm_compute|]); try done;
    eexists _, _, _; reflexivity.
Qed.

(** X19: weights are loaded exactly when the framework reports a latest
    checkpoint (a path that is not empty), and then from that path and once,
    whatever the flags; the checkpoint directory is created exactly when it
    does not exist. *)
Theorem script_restores_latest_checkpoint (args : arguments) (env : environment) :
  filter is_load (run args env).1
  = match latest_checkpoint env with
    | Some path => if bool_of_str path then [LoadWeights path] else []
    | None => []
    end
  ∧ filter is_makedirs (run args env).1
    = if checkpoint_dir_exists env then [] else [Makedirs checkpoint_dir].
Proof.
  destruct args as [ep ie bs ex ev], env as [dir_exists latest isseq].
  unfold run, main, when, truthy, bool_of_str.
  cbn [export_only eval_only epochs initial_epoch batch_size latest_checkpoint
       checkpoint_dir_exists].
  unfold take_method. cbn [is_sequence].
  destruct latest as [path|]; [destruct (String.eqb path "") eqn:Hpath|];
    destruct dir_exists, ex, ev, (isseq (test_dataset _)); split; reflexivity.
Qed.

(** X20: a flag declared with [type=bool] is set by every value but the empty
    string: [--export_only False] makes the script save the model and quit
    without training. *)
Theorem script_flag_set_by_any_value (args : arguments) (env : environment)
    (value : string) :
  value ≠ ""%string →
  export_only args = flag (Some value) →
  (run args env).2 = false
  ∧ filter is_save (run args env).1 = [SaveModel export_dir]
  ∧ filter is_fit (run args env).1 = [].
Proof.
  intros Hv Hflag.
  assert (export_only args = true) as Hex.
  { rewrite Hflag. unfold flag, bool_of_str.
    destruct (String.eqb_spec value ""); done. }
  clear Hflag Hv. run_script args env; by vm_compute.
Qed.

End ScriptProperties.

(** * The further theorems on the training run *)

Lemma lr_schedule_sorted_is_lookup_witness :
  _lr_schedule 30 (Float.literal 1 3) training_schedule
  = Return (default (Float.literal 1 3) (schedule_map training_schedule !! 30)).
Proof.
  apply lr_schedule_sorted_is_lookup; [discriminate|exact training_schedule_sorted].
Defined.

Lemma lr_schedule_changes_only_on_listed_epoch_witness :
  Float.literal 1 4 = Float.literal 1 3
  ∨ (30, Float.literal 1 4) ∈ duplicate_schedule.
Proof.
  apply (lr_schedule_changes_only_on_listed_epoch duplicate_schedule 30
           (Float.literal 1 3) (Float.literal 1 4)).
  reflexivity.
Defined.

Lemma lr_schedule_identity_or_constant_witness :
  (∀ current_rate : float,
     _lr_schedule 30 current_rate descending_schedule = Return current_rate)
  ∨ (∃ r : float, ∀ current_rate,
       _lr_schedule 30 current_rate descending_schedule = Return r).
Proof. apply lr_schedule_identity_or_constant. discriminate. Defined.

Lemma lr_schedule_idempotent_witness :
  _lr_schedule 30 (Float.literal 1 4) training_schedule = Return (Float.literal 1 4).
Proof.
  apply (lr_schedule_idempotent training_schedule 30 (Float.literal 1 3)).
  reflexivity.
Defined.

Lemma lr_schedule_descending_is_dead_witness :
  _lr_schedule 30 (Float.literal 5 4) descending_schedule = Return (Float.literal 5 4).
Proof.
  apply (lr_schedule_descending_is_dead descending_schedule
           (50, Float.literal 1 5) (1, Float.literal 1 3)).
  - reflexivity.
  - reflexivity.
  - cbn. lia.
Defined.

Lemma lr_schedule_unlisted_epoch_witness :
  _lr_schedule 31 (Float.literal 5 4) duplicate_schedule = Return (Float.literal 5 4).
Proof.
  apply lr_schedule_unlisted_epoch; [discriminate|].
  apply (bool_decide_unpack _). vm_compute. exact I.
Defined.

Lemma on_epoch_begin_exception_safe_witness :
  heap (on_epoch_begin callback_without_schedule 3 later_world).2 = heap later_world
  ∧ stdout (on_epoch_begin callback_without_schedule 3 later_world).2
    = stdout later_world.
Proof.
  apply (on_epoch_begin_exception_safe callback_without_schedule 3 later_world IndexError).
  reflexivity.
Defined.

Lemma on_epoch_begin_frame_witness :
  heap (on_epoch_begin training_callback 30 later_world).2 1%nat = heap later_world 1%nat.
Proof. apply on_epoch_begin_frame. discriminate. Defined.

Lemma on_epoch_begin_empty_schedule_witness :
  on_epoch_begin callback_without_schedule 3 initial_world
  = (Raise IndexError,
     {| heap := heap initial_world;
        trace := trace initial_world ++ [GetValue 0%nat (heap initial_world 0%nat)] |}).
Proof.
  apply (on_epoch_begin_empty_schedule callback_without_schedule 3 initial_world
           0%nat 0%nat); reflexivity.
Defined.

Lemma run_epochs_logs_each_epoch_witness :
  ∃ rates : list float,
    (run_epochs training_callback (epoch_range 0 60) initial_world).1 = Return ()
    ∧ length rates = length (epoch_range 0 60)
    ∧ stdout (run_epochs training_callback (epoch_range 0 60) initial_world).2
      = stdout initial_world ++ zip_with epoch_message (epoch_range 0 60) rates
    ∧ Forall (λ r, r = Float.widen (heap initial_world 0%nat)
                   ∨ r ∈ (schedule training_callback).*2
                   ∨ ∃ listed, listed ∈ (schedule training_callback).*2
                               ∧ r = Float.widen (Float.to_f32 listed)) rates
    ∧ (∀ l, l ≠ 0%nat →
         heap (run_epochs training_callback (epoch_range 0 60) initial_world).2 l
         = heap initial_world l).
Proof.
  apply (run_epochs_logs_each_epoch training_callback 0%nat 0%nat);
    [reflexivity|reflexivity|discriminate].
Defined.

(** Resumed at epoch 10 the run stays, up to epoch 29, at the rate the
    optimizer was built with. *)
Lemma run_epochs_unlisted_keeps_rate_witness :
  (run_epochs training_callback (epoch_range 10 30) initial_world).1 = Return ()
  ∧ ∀ l, heap (run_epochs training_callback (epoch_range 10 30) initial_world).2 l
         = heap initial_world l.
Proof.
  apply (run_epochs_unlisted_keeps_rate training_callback 0%nat);
    [reflexivity|reflexivity|discriminate|].
  apply (bool_decide_unpack _). vm_compute. exact I.
Defined.

(** Started at epoch 0 the run is, at epoch 29, at the rate of the breakpoint
    of epoch 1. *)
Lemma run_epochs_holds_breakpoint_rate_witness :
  (run_epochs training_callback (epoch_range 0 (29 + 1)) initial_world).1 = Return ()
  ∧ heap (run_epochs training_callback (epoch_range 0 (29 + 1)) initial_world).2 0%nat
    = Float.to_f32 (Float.literal 1 3).
Proof.
  apply (run_epochs_holds_breakpoint_rate training_callback 0%nat) with (b := 1).
  - reflexivity.
  - reflexivity.
  - discriminate.
  - exact training_schedule_sorted.
  - exact training_schedule_unique.
  - left.
  - lia.
  - intros k Hk Hin. vm_compute in Hin.
    repeat (apply elem_of_cons in Hin as [->|Hin]; [lia|]).
    by apply elem_of_nil in Hin.
Defined.

Lemma format_f_tiny_rate_prints_zero_witness :
  Fmt.format_f 6 6 (Float.literal 1 7)
  = Fmt.sign_text (Float.sign (Float.literal 1 7)) ++ text "0.000000".
Proof.
  eapply format_f_tiny_rate_prints_zero; [reflexivity|].
  vm_compute. discriminate.
Defined.

Lemma epoch_message_tells_epochs_apart_witness : 5 = 5.
Proof.
  apply (epoch_message_tells_epochs_apart 5 5 (Float.literal 1 7) (Float.literal 2 7));
    [lia|lia|]. vm_compute. reflexivity.
Defined.

Lemma script_export_only_witness :
  (Script.run export_false_arguments later_run).2 = false
  ∧ filter Script.is_save (Script.run export_false_arguments later_run).1
    = [Script.SaveModel Script.export_dir]
  ∧ filter Script.is_fit (Script.run export_false_arguments later_run).1 = []
  ∧ filter Script.is_evaluate (Script.run export_false_arguments later_run).1 = [].
Proof. apply script_export_only. reflexivity. Defined.

Lemma script_eval_only_witness :
  (Script.run eval_arguments later_run).2 = false
  ∧ filter Script.is_evaluate (Script.run eval_arguments later_run).1
    = [Script.Evaluate
         (Script.batched later_run (Script.batch_size eval_arguments)
            (Script.test_dataset eval_arguments))]
  ∧ filter Script.is_fit (Script.run eval_arguments later_run).1 = []
  ∧ filter Script.is_save (Script.run eval_arguments later_run).1 = [].
Proof. apply script_eval_only; reflexivity. Defined.

Lemma script_trains_then_evaluates_witness :
  ((Script.run default_arguments first_run).2 = true
   ∧ filter Script.is_save (Script.run default_arguments first_run).1 = []
   ∧ Script.raised default_arguments first_run = None
   ∧ ∃ train checkpoint board,
       filter (λ a, Script.is_fit a || Script.is_evaluate a)
         (Script.run default_arguments first_run).1
       = [Script.Fit train
            (Script.batched first_run (Script.batch_size default_arguments)
               (Script.take 320 (Script.test_dataset default_arguments)))
            (Script.epochs default_arguments)
            (Script.initial_epoch default_arguments)
            [checkpoint; board; Script.LearningRateSchedule training_schedule];
          Script.Evaluate
            (Script.batched first_run (Script.batch_size default_arguments)
               (Script.test_dataset default_arguments))])
  ∧ ((Script.run default_arguments sequence_run).2 = true
     ∧ filter Script.is_save (Script.run default_arguments sequence_run).1 = []
     ∧ Script.raised default_arguments sequence_run = Some (AttributeError "take")
     ∧ filter (λ a, Script.is_fit a || Script.is_evaluate a)
         (Script.run default_arguments sequence_run).1 = []).
Proof.
  split.
  - apply (script_trains_then_evaluates default_arguments first_run); reflexivity.
  - apply (script_trains_then_evaluates default_arguments sequence_run); reflexivity.
Defined.

Lemma script_flag_set_by_any_value_witness :
  (Script.run export_false_arguments first_run).2 = false
  ∧ filter Script.is_save (Script.run export_false_arguments first_run).1
    = [Script.SaveModel Script.export_dir]
  ∧ filter Script.is_fit (Script.run export_false_arguments first_run).1 = [].
Proof.
  apply (script_flag_set_by_any_value export_false_arguments first_run "False");
    [discriminate|reflexivity].
Defined.
